(** * uuid7-typed: the UUID7Generator utility class of src/index.ts

    A shallow embedding of the class [UUID7Generator] and of the parts of
    the JavaScript runtime it calls (strings as sequences of UTF-16 code
    units, the regular-expression matcher restricted to the constructs of
    the validation pattern, [String.prototype.slice], [parseInt], the
    [Date] constructor and [Array.from]), followed by the properties of
    the specification. *)

From Stdlib Require Import Ascii String.
From Stdlib Require Import ZArith NArith List Bool Lia DecimalString.
From Stdlib Require Import Floats.SpecFloat.
Import ListNotations.

(** ** The JavaScript runtime pieces used by the class *)

Module JS.

(** A JavaScript string is a finite sequence of UTF-16 code units. *)
Definition CodeUnit := N.
Definition jsstring := list CodeUnit.

Definition cu (c : ascii) : CodeUnit := N_of_ascii c.

(** A string literal of the source (ASCII only). *)
Definition lit (s : string) : jsstring := map cu (list_ascii_of_string s).

Definition is_some {A} (o : option A) : bool :=
  match o with Some _ => true | None => false end.

(** *** Regular expressions

    Only the constructs that occur in the validation pattern: the two
    line assertions, a literal character, a character class made of
    single characters and ranges, the exact quantifier [{n}] and
    concatenation. None of them needs backtracking, so the matcher
    returns the end index directly. *)

Inductive ClassAtom :=
| ClassChar (c : CodeUnit)
| ClassRange (lo hi : CodeUnit).

Inductive Pattern :=
| AssertStart                              (* ^ *)
| AssertEnd                                (* $ *)
| Char (c : CodeUnit)                      (* a literal character *)
| CharClass (atoms : list ClassAtom)       (* [...] *)
| Quantified (p : Pattern) (n : nat)       (* p{n} *)
| Concat (p q : Pattern).

Record RegExp := { source : Pattern; ignoreCase : bool }.

Definition atom_members (a : ClassAtom) : list CodeUnit :=
  match a with
  | ClassChar c => [c]
  | ClassRange lo hi =>
      map (fun k => (lo + N.of_nat k)%N) (seq 0 (N.to_nat (hi + 1 - lo)))
  end.

Definition class_members (atoms : list ClassAtom) : list CodeUnit :=
  flat_map atom_members atoms.

Section Matcher.

(** The Unicode upper-case mapping of a single code unit, as a sequence
    of code units. The matcher consults it only for code units outside
    ASCII; inside ASCII the mapping is written out. *)
Variable unicodeUpper : CodeUnit -> list CodeUnit.

Definition toUppercase (ch : CodeUnit) : list CodeUnit :=
  if (ch <? 128)%N
  then [if ((97 <=? ch) && (ch <=? 122))%N then (ch - 32)%N else ch]
  else unicodeUpper ch.

(** Canonicalize of the RegExp semantics, for a pattern without the
    [u] flag. *)
Definition Canonicalize (ic : bool) (ch : CodeUnit) : CodeUnit :=
  if negb ic then ch
  else match toUppercase ch with
       | [c] => if ((128 <=? ch) && (c <? 128))%N then ch else c
       | _ => ch
       end.

Definition char_matches (ic : bool) (c ch : CodeUnit) : bool :=
  (Canonicalize ic c =? Canonicalize ic ch)%N.

Definition class_matches (ic : bool) (atoms : list ClassAtom)
                         (ch : CodeUnit) : bool :=
  existsb (fun a => (Canonicalize ic a =? Canonicalize ic ch)%N)
          (class_members atoms).

Section Run.
Variable ic : bool.
Variable input : jsstring.

Fixpoint repeat_match (m : nat -> option nat) (n : nat) (i : nat)
  : option nat :=
  match n with
  | O => Some i
  | S n' => match m i with
            | Some j => repeat_match m n' j
            | None => None
            end
  end.

(** [pmatch p i] matches [p] against [input] from index [i] and
    returns the end index of the match. *)
Fixpoint pmatch (p : Pattern) (i : nat) : option nat :=
  match p with
  | AssertStart => if Nat.eqb i 0 then Some i else None
  | AssertEnd => if Nat.eqb i (length input) then Some i else None
  | Char c =>
      match nth_error input i with
      | Some ch => if char_matches ic c ch then Some (S i) else None
      | None => None
      end
  | CharClass atoms =>
      match nth_error input i with
      | Some ch => if class_matches ic atoms ch then Some (S i) else None
      | None => None
      end
  | Quantified q n => repeat_match (pmatch q) n i
  | Concat q r =>
      match pmatch q i with
      | Some j => pmatch r j
      | None => None
      end
  end.

(** The search loop of RegExpBuiltinExec for a pattern without the
    [g] and [y] flags: start positions [lastIndex], [lastIndex + 1],
    ... are tried until one matches or the position passes the end of
    the input; [tries] bounds the positions that are left. *)
Fixpoint exec_loop (p : Pattern) (tries lastIndex : nat) : option nat :=
  match tries with
  | O => None
  | S t =>
      if Nat.ltb (length input) lastIndex then None
      else match pmatch p lastIndex with
           | Some e => Some e
           | None => exec_loop p t (S lastIndex)
           end
  end.
End Run.

Definition RegExpBuiltinExec (R : RegExp) (str : jsstring) : option nat :=
  exec_loop (ignoreCase R) str (source R) (length str + 1) 0.

(** [RegExp.prototype.test]. *)
Definition RegExp_test (R : RegExp) (str : jsstring) : bool :=
  is_some (RegExpBuiltinExec R str).

End Matcher.

(** *** Strings: [slice], comparison *)

(** [String.prototype.slice(start, end)] with integer arguments. *)
Definition slice (s : jsstring) (start end_ : Z) : jsstring :=
  let len := Z.of_nat (length s) in
  let from :=
    if (start <? 0)%Z then Z.max (len + start) 0 else Z.min start len in
  let to :=
    if (end_ <? 0)%Z then Z.max (len + end_) 0 else Z.min end_ len in
  if (to <=? from)%Z then []
  else firstn (Z.to_nat (to - from)) (skipn (Z.to_nat from) s).

(** [IsStringPrefix p q]: [p] is a prefix of [q]. *)
Fixpoint IsStringPrefix (p q : jsstring) : bool :=
  match p, q with
  | [], _ => true
  | _ :: _, [] => false
  | m :: p', n :: q' => (m =? n)%N && IsStringPrefix p' q'
  end.

(** The code units at the smallest index where [px] and [py] differ. *)
Fixpoint first_difference (px py : jsstring) : option (CodeUnit * CodeUnit) :=
  match px, py with
  | m :: px', n :: py' =>
      if (m =? n)%N then first_difference px' py' else Some (m, n)
  | _, _ => None
  end.

(** IsLessThan on two strings, the meaning of [px < py]. *)
Definition string_lt (px py : jsstring) : bool :=
  if IsStringPrefix py px then false
  else if IsStringPrefix px py then true
  else match first_difference px py with
       | Some (m, n) => (m <? n)%N
       | None => false
       end.

(** *** Numbers

    A Number is an IEEE 754 binary64 value, [spec_float] at precision 53
    and maximal exponent 1024. The operations below read a finite value
    [S754_finite s m e] as [(-1)^s * m * 2^e], whether or not the
    mantissa is normalised. *)
Definition Number := spec_float.
Definition prec : Z := 53.
Definition emax : Z := 1024.

(** The Number for a mathematical integer, rounding to nearest, ties to
    even. *)
Definition Number_of_Z (z : Z) : Number := binary_normalize prec emax z 0 false.

Definition Number_lt (x y : Number) : bool := SFltb x y.

(** The integer part of [m * 2^e] for a positive mantissa. *)
Definition truncate_pos (m : positive) (e : Z) : Z :=
  if (0 <=? e)%Z then Zpos m * 2 ^ e else Zpos m / 2 ^ (- e).

(** [Number.isInteger]. *)
Definition Number_isInteger (x : Number) : bool :=
  match x with
  | S754_zero _ => true
  | S754_finite _ m e =>
      if (0 <=? e)%Z then true else (Zpos m mod 2 ^ (- e) =? 0)%Z
  | S754_infinity _ | S754_nan => false
  end.

(** ToLength: ToIntegerOrInfinity clamped to [0, 2^53 - 1]. *)
Definition ToLength (x : Number) : Z :=
  match x with
  | S754_nan | S754_zero _ => 0
  | S754_infinity s => if s then 0 else 2 ^ 53 - 1
  | S754_finite s m e => if s then 0 else Z.min (truncate_pos m e) (2 ^ 53 - 1)
  end.

(** *** [parseInt] *)

Definition is_whitespace (c : CodeUnit) : bool :=
  existsb (N.eqb c)
    [9; 10; 11; 12; 13; 32; 160; 5760; 8192; 8193; 8194; 8195; 8196; 8197;
     8198; 8199; 8200; 8201; 8202; 8232; 8233; 8239; 8287; 12288; 65279]%N.

Fixpoint trim_start (s : jsstring) : jsstring :=
  match s with
  | c :: r => if is_whitespace c then trim_start r else s
  | [] => []
  end.

(** The value of a digit [0-9a-zA-Z]. *)
Definition digit_value (c : CodeUnit) : option Z :=
  if ((48 <=? c) && (c <=? 57))%N then Some (Z.of_N c - 48)%Z
  else if ((97 <=? c) && (c <=? 122))%N then Some (Z.of_N c - 87)%Z
  else if ((65 <=? c) && (c <=? 90))%N then Some (Z.of_N c - 55)%Z
  else None.

Definition radix_digit (R : Z) (c : CodeUnit) : option Z :=
  match digit_value c with
  | Some d => if (d <? R)%Z then Some d else None
  | None => None
  end.

(** The longest prefix of radix-[R] digits, as digit values. *)
Fixpoint digits_prefix (R : Z) (s : jsstring) : list Z :=
  match s with
  | c :: r => match radix_digit R c with
              | Some d => d :: digits_prefix R r
              | None => []
              end
  | [] => []
  end.

Definition digits_value (R : Z) (ds : list Z) : Z :=
  fold_left (fun acc d => acc * R + d)%Z ds 0%Z.

(** [parseInt(string, radix)] for an integer [radix]. The mathematical
    value of the digits is exact, as it is for the radices 2, 4, 8, 10,
    16 and 32. *)
Definition parseInt (string : jsstring) (radix : Z) : Number :=
  let s := trim_start string in
  let negative := match s with c :: _ => (c =? cu "-")%N | [] => false end in
  let s := match s with
           | c :: r => if ((c =? cu "+") || (c =? cu "-"))%N then r else s
           | [] => s
           end in
  if (negb (radix =? 0) && ((radix <? 2) || (36 <? radix)))%Z then S754_nan
  else
    let stripPrefix := ((radix =? 0) || (radix =? 16))%Z in
    let R := if (radix =? 0)%Z then 10%Z else radix in
    let sR :=
      if stripPrefix then
        match s with
        | z :: x :: r =>
            if ((z =? cu "0") && ((x =? cu "x") || (x =? cu "X")))%N
            then (r, 16%Z) else (s, R)
        | _ => (s, R)
        end
      else (s, R) in
    match digits_prefix (snd sR) (fst sR) with
    | [] => S754_nan
    | ds =>
        let mathInt := digits_value (snd sR) ds in
        if (mathInt =? 0)%Z then S754_zero negative
        else Number_of_Z (if negative then - mathInt else mathInt)
    end.

(** *** Dates

    A Date holds a time value: an integral number of milliseconds since
    the epoch, or NaN (an invalid Date), here [None]. *)
Record Date := { DateValue : option Z }.

Definition TimeClip (time : Number) : option Z :=
  match time with
  | S754_nan | S754_infinity _ => None
  | S754_zero _ => Some 0%Z
  | S754_finite s m e =>
      let too_large :=
        if (0 <=? e)%Z then (8640000000000000 <? Zpos m * 2 ^ e)%Z
        else (8640000000000000 * 2 ^ (- e) <? Zpos m)%Z in
      if too_large then None else Some (cond_Zopp s (truncate_pos m e))
  end.

(** [new Date(value)] for a Number. *)
Definition new_Date (value : Number) : Date :=
  {| DateValue := TimeClip value |}.

(** *** Errors and completions *)

Inductive JSError :=
| Error (message : jsstring)        (* new Error(message) *)
| RangeError.                       (* raised by the runtime *)

Inductive Completion (A : Type) :=
| Normal (v : A)
| Throw (e : JSError).
Arguments Normal {A} v.
Arguments Throw {A} e.

(** *** [Array.from({ length: count }, mapfn)]

    The length is [ToLength(count)]. The result Array is constructed
    with this length first, which throws a RangeError when the length
    exceeds [2^32 - 1]. Then [mapfn] is called for the indices
    [0 .. len - 1] in order; it may change a state of type [St] and may
    throw, which ends the loop. *)
Section ArrayFrom.
Context {St A : Type}.
Variable mapfn : St -> Completion A * St.

Fixpoint from_loop (n : nat) (st : St) : Completion (list A) * St :=
  match n with
  | O => (Normal [], st)
  | S n' =>
      match mapfn st with
      | (Normal v, st1) =>
          match from_loop n' st1 with
          | (Normal l, st2) => (Normal (v :: l), st2)
          | (Throw e, st2) => (Throw e, st2)
          end
      | (Throw e, st1) => (Throw e, st1)
      end
  end.

Definition Array_from_length (count : Number) (st : St)
  : Completion (list A) * St :=
  let len := ToLength count in
  if (2 ^ 32 - 1 <? len)%Z then (Throw RangeError, st)
  else from_loop (Z.to_nat len) st.
End ArrayFrom.

End JS.

(** ** The class [UUID7Generator] *)

Module UUID7Generator.
Import JS.

(** [type UUID7 = string & { readonly __brand: unique symbol }]: a string
    at run time. *)
Definition UUID7 := jsstring.

Definition hexdigit : Pattern :=
  CharClass [ClassRange (cu "0") (cu "9"); ClassRange (cu "a") (cu "f")].

Notation "p ;; q" := (Concat p q) (at level 61, right associativity).

(** The pattern
    [/^[0-9a-f]{8}-[0-9a-f]{4}-7[0-9a-f]{3}-[89ab][0-9a-f]{3}-[0-9a-f]{12}$/i]. *)
Definition validateUUID7 : RegExp :=
  {| source :=
       AssertStart ;;
       Quantified hexdigit 8 ;; Char (cu "-") ;;
       Quantified hexdigit 4 ;; Char (cu "-") ;;
       Char (cu "7") ;; Quantified hexdigit 3 ;; Char (cu "-") ;;
       CharClass [ClassChar (cu "8"); ClassChar (cu "9");
                  ClassChar (cu "a"); ClassChar (cu "b")] ;;
       Quantified hexdigit 3 ;; Char (cu "-") ;;
       Quantified hexdigit 12 ;;
       AssertEnd;
     ignoreCase := true |}.

Section Class.

Variable unicodeUpper : CodeUnit -> list CodeUnit.

(** The [uuidv7] package: a generator object with internal state [Gen],
    whose [generateOrAbort()] returns a UUID object or [undefined], and
    the [toString()] of a UUID object. *)
Context {UUID : Type}.
Context {Gen : Type}.
Variable generateOrAbort : Gen -> option UUID * Gen.
Variable UUID_toString : UUID -> jsstring.

(** The conversion of a Number inside a template literal. *)
Variable Number_toString : Number -> jsstring.

Definition isValid (value : jsstring) : bool :=
  RegExp_test unicodeUpper validateUUID7 value.

Definition is_empty (s : jsstring) : bool :=
  match s with [] => true | _ :: _ => false end.

Definition create (g : Gen) : Completion UUID7 * Gen :=
  let (r, g') := generateOrAbort g in
  let value := match r with
               | Some u => UUID_toString u
               | None => lit ""
               end in
  if is_empty value || negb (RegExp_test unicodeUpper validateUUID7 value)
  then (Throw (Error (lit "Invalid UUIDv7 format: " ++ value)), g')
  else (Normal value, g').

Definition createMany (count : Number) (g : Gen)
  : Completion (list UUID7) * Gen :=
  if Number_lt count (S754_zero false) || negb (Number_isInteger count)
  then (Throw (Error (lit "Count must be a non-negative integer: "
                        ++ Number_toString count)), g)
  else Array_from_length create count g.

Definition compare (a b : UUID7) : Z :=
  if string_lt a b then (-1)%Z
  else if string_lt b a then 1%Z
  else 0%Z.

Definition fromString (value : jsstring) : Completion UUID7 :=
  if negb (RegExp_test unicodeUpper validateUUID7 value)
  then Throw (Error (lit "Invalid UUIDv7 format: " ++ value))
  else Normal value.

Definition tryFromString (value : jsstring) : option UUID7 :=
  if isValid value then Some value else None.

Definition getTimestamp (uuid : UUID7) : Date :=
  let timestampHex := slice uuid 0 8 ++ slice uuid 9 13 in
  let timestampMs := parseInt timestampHex 16 in
  new_Date timestampMs.

End Class.

End UUID7Generator.

(** ** The specification's vocabulary

    The structural pattern, substrings and hexadecimal numerals as the
    specification words them, and two measures on patterns used by the
    proofs. *)

Module Spec.
Import JS.

Definition is_hex_digit (c : CodeUnit) : bool :=
  (((48 <=? c) && (c <=? 57)) || ((97 <=? c) && (c <=? 102))
   || ((65 <=? c) && (c <=? 70)))%N.

Definition is_variant_digit (c : CodeUnit) : bool :=
  existsb (N.eqb c) [cu "8"; cu "9"; cu "a"; cu "b"; cu "A"; cu "B"].

Definition position_ok (i : nat) (c : CodeUnit) : bool :=
  match i with
  | 8 | 13 | 18 | 23 => (c =? cu "-")%N
  | 14 => (c =? cu "7")%N
  | 19 => is_variant_digit c
  | _ => is_hex_digit c
  end.

Definition UUIDv7_pattern (s : jsstring) : Prop :=
  length s = 36 /\
  forall i c, nth_error s i = Some c -> position_ok i c = true.

(** The characters of [s] at the positions [[i, j)]. *)
Definition substring (s : jsstring) (i j : nat) : jsstring :=
  firstn (j - i) (skipn i s).

(** The value of a hexadecimal digit, in either case. *)
Definition hex_digit_value (c : CodeUnit) : Z :=
  if (c <=? 57)%N then Z.of_N c - 48
  else if (97 <=? c)%N then Z.of_N c - 87
  else Z.of_N c - 55.

(** The unsigned integer written by a string of hexadecimal digits. *)
Definition base16 (s : jsstring) : Z :=
  fold_left (fun acc c => 16 * acc + hex_digit_value c)%Z s 0%Z.

Fixpoint width (p : Pattern) : nat :=
  match p with
  | AssertStart | AssertEnd => 0
  | Char _ | CharClass _ => 1
  | Quantified q n => n * width q
  | Concat q r => width q + width r
  end.

Fixpoint ends_with_AssertEnd (p : Pattern) : bool :=
  match p with
  | AssertEnd => true
  | Concat _ r => ends_with_AssertEnd r
  | _ => false
  end.

(** Lexicographic order, code unit by code unit: a proper prefix sorts
    first, otherwise the first position that differs decides. *)
Inductive lex_before : jsstring -> jsstring -> Prop :=
| lex_prefix : forall n y, lex_before [] (n :: y)
| lex_head : forall m n x y, (m < n)%N -> lex_before (m :: x) (n :: y)
| lex_tail : forall m x y, lex_before x y -> lex_before (m :: x) (m :: y).

Definition is_upper_letter (c : CodeUnit) : bool :=
  ((65 <=? c) && (c <=? 90))%N.
Definition is_lower_letter (c : CodeUnit) : bool :=
  ((97 <=? c) && (c <=? 122))%N.

(** No upper-case letter occurs. *)
Definition lower_case (s : jsstring) : bool :=
  forallb (fun c => negb (is_upper_letter c)) s.

Definition upper_case (s : jsstring) : bool :=
  forallb (fun c => negb (is_lower_letter c)) s.

(** Both strings spell their letters in one case. *)
Definition same_case (a b : jsstring) : bool :=
  (lower_case a && lower_case b) || (upper_case a && upper_case b).

(** The ASCII lower-case and upper-case forms of a code unit. *)
Definition to_lower_ascii (c : CodeUnit) : CodeUnit :=
  if is_upper_letter c then (c + 32)%N else c.

Definition to_upper_ascii (c : CodeUnit) : CodeUnit :=
  if is_lower_letter c then (c - 32)%N else c.

Open Scope Z_scope.

(** The Number [x] is the integer [z]: [m * 2^e = z], read as
    [m = z * 2^(-e)] when the exponent is negative. *)
Definition represents (x : Number) (z : Z) : Prop :=
  match x with
  | S754_zero _ => z = 0
  | S754_finite s m e =>
      if 0 <=? e then z = cond_Zopp s (Zpos m * 2 ^ e)
      else cond_Zopp s (Zpos m) = z * 2 ^ (- e)
  | S754_infinity _ | S754_nan => False
  end.

Definition is_integer (x : Number) : Prop := exists z, represents x z.

(** [x] is below zero; minus zero is not. *)
Definition is_negative (x : Number) : Prop :=
  match x with
  | S754_infinity s | S754_finite s _ _ => s = true
  | S754_zero _ | S754_nan => False
  end.

Section Calls.
Context {St A : Type}.
Variable f : St -> Completion A * St.

(** [calls g l g']: successive calls of [f] from the state [g] return
    the values [l], in this order, and leave the state [g']. *)
Inductive calls : St -> list A -> St -> Prop :=
| calls_nil : forall g, calls g [] g
| calls_cons : forall g v g1 l g2,
    f g = (Normal v, g1) -> calls g1 l g2 -> calls g (v :: l) g2.
End Calls.

Close Scope Z_scope.

End Spec.

(** ** Concrete inputs

    Strings, Numbers and generators at which the properties below are
    evaluated. *)

Module Examples.
Import JS.

(** A case table in which no code unit outside ASCII has an upper-case
    form of its own. *)
Definition plain_table : CodeUnit -> list CodeUnit := fun c => [c].

Definition sample : jsstring := lit "01923f4a-7b3d-7123-8456-426614174000".
Definition later : jsstring := lit "01923f4a-7b3e-7000-8000-000000000000".
Definition not_a_uuid : jsstring := lit "not-a-uuid".

(** Two identifiers that differ in the case of one timestamp digit. *)
Definition lower_a : jsstring := lit "0000000a-0000-7000-8000-000000000000".
Definition upper_b : jsstring := lit "0000000B-0000-7000-8000-000000000000".

(** Generators whose UUID objects are their own text and whose state
    counts the calls: one that keeps printing [sample], one that aborts
    and one that prints something else. *)
Definition text (u : jsstring) : jsstring := u.
Definition steady (g : nat) : option jsstring * nat := (Some sample, S g).
Definition aborting (g : nat) : option jsstring * nat := (None, S g).
Definition garbled (g : nat) : option jsstring * nat := (Some not_a_uuid, S g).

Definition two : Number := Number_of_Z 2.
Definition minus_one : Number := Number_of_Z (-1).
Definition one_and_a_half : Number := binary_normalize prec emax 3 (-1) false.
Definition two_pow_32 : Number := Number_of_Z (2 ^ 32).

Definition decimal (z : Z) : jsstring :=
  lit (DecimalString.NilZero.string_of_int (Z.to_int z)).

Fixpoint drop_zeros (s : jsstring) : jsstring :=
  match s with
  | c :: r => if (c =? cu "0")%N then drop_zeros r else s
  | [] => []
  end.

(** The decimal expansion of [f / 2^k], without trailing zeros. *)
Definition fraction (f : Z) (k : Z) : jsstring :=
  let ds := decimal (f * 5 ^ k) in
  let padded := repeat (cu "0") (Z.to_nat k - length ds) ++ ds in
  rev (drop_zeros (rev padded)).

(** A stand-in for the runtime's conversion of a Number to a string:
    exact positional decimal notation. It agrees with the runtime on the
    Numbers printed below (small integers, [1.5], NaN) and not in
    general: the runtime prints the shortest digits that read back as
    the same Number, and exponent notation for large and small
    magnitudes. The properties are stated for an arbitrary conversion
    and do not depend on this one. *)
Definition print_number (x : Number) : jsstring :=
  match x with
  | S754_nan => lit "NaN"
  | S754_infinity s => if s then lit "-Infinity" else lit "Infinity"
  | S754_zero _ => lit "0"
  | S754_finite s m e =>
      (if s then lit "-" else []) ++
      (if (0 <=? e)%Z then decimal (Zpos m * 2 ^ e)
       else
         let k := (- e)%Z in
         let f := (Zpos m mod 2 ^ k)%Z in
         decimal (Zpos m / 2 ^ k)
         ++ (if (f =? 0)%Z then [] else cu "." :: fraction f k))
  end.

(** Two identifiers whose timestamp digits are in lower case, the first
    with an upper-case letter among its last characters. *)
Definition lower_a_upper_tail : jsstring :=
  lit "0000000a-0000-7000-8000-00000000000A".
Definition lower_b : jsstring := lit "0000000b-0000-7000-8000-000000000000".

(** An identifier with the timestamp of [sample] and other random bits. *)
Definition sample_twin : jsstring :=
  lit "01923f4a-7b3d-7fff-bfff-ffffffffffff".

Definition one : Number := Number_of_Z 1.
Definition three : Number := Number_of_Z 3.

End Examples.

(** ** Properties *)

Import JS UUID7Generator Spec.

(** Proof steps shared by the lemmas below. *)

(** Evaluate [Canonicalize] on the literal code units of the goal. *)
Ltac canon_consts :=
  repeat match goal with
  | |- context [Canonicalize ?u true (Npos ?p)] =>
      let v := eval vm_compute in (Canonicalize u true (Npos p)) in
      change (Canonicalize u true (Npos p)) with v
  end.

(** Turn an equation between boolean tests into an equivalence between
    arithmetic facts. *)
Ltac bool_iff :=
  apply eq_true_iff_eq;
  rewrite ?orb_true_iff, ?andb_true_iff, ?N.eqb_eq, ?N.leb_le.

(** From [H : forall i c, nth_error s i = Some c -> P i c] on an explicit
    list [s], the facts [P i c] for the positions below [k]. *)
Ltac position_facts H k :=
  lazymatch k with
  | O => idtac
  | S ?k' => pose proof (H k' _ eq_refl); position_facts H k'
  end.

Section RegExpFacts.
Variable up : CodeUnit -> list CodeUnit.

Lemma Canonicalize_ascii ch :
  (ch < 128)%N ->
  Canonicalize up true ch
  = if ((97 <=? ch) && (ch <=? 122))%N then (ch - 32)%N else ch.
Proof.
  intros H. unfold Canonicalize, toUppercase. simpl negb. cbv iota.
  destruct (N.ltb_spec ch 128); [|lia].
  destruct (N.leb_spec 128 ch); [lia|]. reflexivity.
Qed.

Lemma Canonicalize_high ch :
  (128 <= ch)%N -> (128 <= Canonicalize up true ch)%N.
Proof.
  intros H. unfold Canonicalize, toUppercase. simpl negb. cbv iota.
  destruct (N.ltb_spec ch 128); [lia|].
  destruct (up ch) as [|c [|d l]]; try assumption.
  destruct (N.leb_spec 128 ch); [|lia]. simpl.
  destruct (N.ltb_spec c 128); lia.
Qed.

(** A code unit is either in ASCII, where its canonical form is written
    out, or outside, and then so is its canonical form. *)
Lemma Canonicalize_cases ch :
  ((ch < 128)%N /\
   Canonicalize up true ch
   = if ((97 <=? ch) && (ch <=? 122))%N then (ch - 32)%N else ch)
  \/ ((128 <= ch)%N /\ (128 <= Canonicalize up true ch)%N).
Proof.
  destruct (N.lt_ge_cases ch 128) as [H|H].
  - left. split; [assumption | now apply Canonicalize_ascii].
  - right. split; [assumption | now apply Canonicalize_high].
Qed.

Lemma class_matches_hexdigit ch :
  class_matches up true
    [ClassRange (cu "0") (cu "9"); ClassRange (cu "a") (cu "f")] ch
  = is_hex_digit ch.
Proof.
  unfold class_matches, is_hex_digit.
  change (class_members _)
    with [48; 49; 50; 51; 52; 53; 54; 55; 56; 57;
          97; 98; 99; 100; 101; 102]%N.
  cbn [existsb]. canon_consts. bool_iff.
  destruct (Canonicalize_cases ch) as [[Hlt ->]|[Hge Hc]].
  - destruct (N.leb_spec 97 ch); destruct (N.leb_spec ch 122);
      cbn [andb]; lia.
  - lia.
Qed.

Lemma class_matches_variant ch :
  class_matches up true
    [ClassChar (cu "8"); ClassChar (cu "9");
     ClassChar (cu "a"); ClassChar (cu "b")] ch
  = is_variant_digit ch.
Proof.
  unfold class_matches, is_variant_digit.
  change (class_members _) with [56; 57; 97; 98]%N.
  change [cu "8"; cu "9"; cu "a"; cu "b"; cu "A"; cu "B"]
    with [56; 57; 97; 98; 65; 66]%N.
  cbn [existsb]. canon_consts. bool_iff.
  destruct (Canonicalize_cases ch) as [[Hlt ->]|[Hge Hc]].
  - destruct (N.leb_spec 97 ch); destruct (N.leb_spec ch 122);
      cbn [andb]; lia.
  - lia.
Qed.

Lemma char_matches_hyphen ch :
  char_matches up true (cu "-") ch = (ch =? cu "-")%N.
Proof.
  unfold char_matches. change (cu "-") with 45%N. canon_consts. bool_iff.
  destruct (Canonicalize_cases ch) as [[Hlt ->]|[Hge Hc]].
  - destruct (N.leb_spec 97 ch); destruct (N.leb_spec ch 122);
      cbn [andb]; lia.
  - lia.
Qed.

Lemma char_matches_seven ch :
  char_matches up true (cu "7") ch = (ch =? cu "7")%N.
Proof.
  unfold char_matches. change (cu "7") with 55%N. canon_consts. bool_iff.
  destruct (Canonicalize_cases ch) as [[Hlt ->]|[Hge Hc]].
  - destruct (N.leb_spec 97 ch); destruct (N.leb_spec ch 122);
      cbn [andb]; lia.
  - lia.
Qed.
End RegExpFacts.

Section MatcherFacts.
Variable up : CodeUnit -> list CodeUnit.
Variable ic : bool.
Variable input : jsstring.

Lemma repeat_match_width (m : nat -> option nat) (w : nat) :
  (forall i j, m i = Some j -> j = i + w) ->
  forall n i j, repeat_match m n i = Some j -> j = i + n * w.
Proof.
  intros Hm n. induction n as [|n IH]; intros i j H; simpl in H.
  - injection H as <-. lia.
  - destruct (m i) as [k|] eqn:Hk; [|discriminate].
    apply Hm in Hk. apply IH in H. lia.
Qed.

Lemma pmatch_width (p : Pattern) :
  forall i j, pmatch up ic input p i = Some j -> j = i + width p.
Proof.
  induction p as [| |c|atoms|q IH n|q IHq r IHr]; intros i j H; simpl in H.
  - destruct (Nat.eqb i 0); [|discriminate]. injection H as <-. simpl. lia.
  - destruct (Nat.eqb i (length input)); [|discriminate].
    injection H as <-. simpl. lia.
  - destruct (nth_error input i); [|discriminate].
    destruct (char_matches up ic c c0); [|discriminate].
    injection H as <-. simpl. lia.
  - destruct (nth_error input i); [|discriminate].
    destruct (class_matches up ic atoms c); [|discriminate].
    injection H as <-. simpl. lia.
  - simpl. eapply repeat_match_width; eassumption.
  - destruct (pmatch up ic input q i) as [k|] eqn:Hk; [|discriminate].
    apply IHq in Hk. apply IHr in H. simpl. lia.
Qed.

Lemma pmatch_ends (p : Pattern) :
  ends_with_AssertEnd p = true ->
  forall i e, pmatch up ic input p i = Some e -> e = length input.
Proof.
  induction p as [| |c|atoms|q IH n|q IHq r IHr]; intros He i e H;
    simpl in He; try discriminate.
  - simpl in H. destruct (Nat.eqb_spec i (length input)); [|discriminate].
    injection H as <-. assumption.
  - simpl in H.
    destruct (pmatch up ic input q i) as [k|]; [|discriminate].
    eapply IHr; eassumption.
Qed.

Lemma exec_loop_AssertStart (q : Pattern) (tries : nat) :
  forall i, 0 < i ->
  exec_loop up ic input (AssertStart ;; q) tries i = None.
Proof.
  induction tries as [|t IH]; intros i Hi; simpl; [reflexivity|].
  destruct (Nat.ltb (length input) i); [reflexivity|].
  destruct (Nat.eqb_spec i 0); [lia|]. apply IH. lia.
Qed.
End MatcherFacts.

Section Validation.
Variable up : CodeUnit -> list CodeUnit.

Lemma RegExp_test_validateUUID7 (s : jsstring) :
  RegExp_test up validateUUID7 s
  = is_some (pmatch up true s (source validateUUID7) 0).
Proof.
  unfold RegExp_test, RegExpBuiltinExec. rewrite Nat.add_1_r.
  cbn [exec_loop ignoreCase].
  change (Nat.ltb (length s) 0) with false. cbv iota.
  change (ignoreCase validateUUID7) with true.
  destruct (pmatch up true s (source validateUUID7) 0) eqn:H;
    [reflexivity|].
  unfold validateUUID7, source. rewrite exec_loop_AssertStart by lia.
  reflexivity.
Qed.

Lemma valid_length (s : jsstring) :
  RegExp_test up validateUUID7 s = true -> length s = 36.
Proof.
  rewrite RegExp_test_validateUUID7.
  destruct (pmatch up true s (source validateUUID7) 0) as [e|] eqn:H;
    [intros _|discriminate].
  assert (Hw : e = 0 + width (source validateUUID7))
    by (eapply pmatch_width; eassumption).
  assert (He : e = length s)
    by (eapply pmatch_ends; [|eassumption]; reflexivity).
  change (width (source validateUUID7)) with 36 in Hw. lia.
Qed.

Lemma pmatch_pattern (s : jsstring) :
  is_some (pmatch up true s (source validateUUID7) 0) = true
  <-> UUIDv7_pattern s.
Proof.
  split.
  - intros H.
    assert (Hlen : length s = 36)
      by (apply valid_length; rewrite RegExp_test_validateUUID7; exact H).
    split; [exact Hlen|].
    do 36 (destruct s as [|? s]; [discriminate Hlen|]).
    destruct s; [clear Hlen|discriminate Hlen].
    unfold validateUUID7, source, hexdigit in H.
    cbn [pmatch repeat_match nth_error Nat.eqb length] in H.
    rewrite ?class_matches_hexdigit, ?class_matches_variant,
      ?char_matches_hyphen, ?char_matches_seven in H.
    repeat match type of H with
    | context [if ?b then _ else _] =>
        destruct b eqn:?; [cbn [pmatch repeat_match nth_error] in H
                          | discriminate H]
    end.
    rewrite ?class_matches_hexdigit, ?class_matches_variant,
      ?char_matches_hyphen, ?char_matches_seven in *.
    intros i ch Hi.
    do 36 (destruct i as [|i];
           [injection Hi as <-; cbn [position_ok]; assumption|]).
    destruct i; discriminate Hi.
  - intros [Hlen H].
    do 36 (destruct s as [|? s]; [discriminate Hlen|]).
    destruct s; [clear Hlen|discriminate Hlen].
    unfold validateUUID7, source, hexdigit.
    cbn [pmatch repeat_match nth_error Nat.eqb length].
    rewrite ?class_matches_hexdigit, ?class_matches_variant,
      ?char_matches_hyphen, ?char_matches_seven.
    position_facts H 36. clear H. cbn [position_ok] in *.
    repeat (rewrite ?class_matches_hexdigit, ?class_matches_variant,
              ?char_matches_hyphen, ?char_matches_seven;
            match goal with
            | E : ?b = true |- context [if ?b then _ else _] => rewrite E
            end;
            cbn [pmatch repeat_match nth_error Nat.eqb length]).
    reflexivity.
Qed.
End Validation.

Open Scope Z_scope.

Section NumberFacts.

Lemma digits2_pos_bounds (p : positive) :
  2 ^ (Zpos (digits2_pos p) - 1) <= Zpos p < 2 ^ Zpos (digits2_pos p).
Proof.
  induction p as [p IH|p IH|]; cbn [digits2_pos].
  - rewrite Pos2Z.inj_succ.
    replace (Z.succ (Zpos (digits2_pos p)) - 1)
      with (Z.succ (Zpos (digits2_pos p) - 1)) by lia.
    rewrite !Z.pow_succ_r by lia. lia.
  - rewrite Pos2Z.inj_succ.
    replace (Z.succ (Zpos (digits2_pos p)) - 1)
      with (Z.succ (Zpos (digits2_pos p) - 1)) by lia.
    rewrite !Z.pow_succ_r by lia. lia.
  - cbn. lia.
Qed.

Lemma digits2_pos_le (p : positive) (n : Z) :
  0 <= n -> Zpos p < 2 ^ n -> Zpos (digits2_pos p) <= n.
Proof.
  intros Hn Hp. pose proof (digits2_pos_bounds p) as [Hlo _].
  destruct (Z.le_gt_cases (Zpos (digits2_pos p)) n) as [|Hgt]; [assumption|].
  assert (2 ^ n <= 2 ^ (Zpos (digits2_pos p) - 1))
    by (apply Z.pow_le_mono_r; lia).
  lia.
Qed.

Lemma iter_xO_digits (p k : positive) :
  digits2_pos (Pos.iter xO p k) = (digits2_pos p + k)%positive.
Proof.
  induction k as [|k IH] using Pos.peano_ind.
  - cbn. lia.
  - rewrite Pos.iter_succ. cbn [digits2_pos]. rewrite IH. lia.
Qed.

Lemma iter_xO_value (p k : positive) :
  Zpos (Pos.iter xO p k) = Zpos p * 2 ^ Zpos k.
Proof.
  induction k as [|k IH] using Pos.peano_ind.
  - cbn. lia.
  - rewrite Pos.iter_succ, Pos2Z.inj_succ, Z.pow_succ_r by lia.
    rewrite Pos2Z.inj_xO, IH. lia.
Qed.

(** Integers below 2^53 are represented exactly. *)
Lemma Number_of_Z_exact (p : positive) :
  Zpos p < 2 ^ 53 ->
  exists m e,
    Number_of_Z (Zpos p) = S754_finite false m e /\
    e <= 0 /\ Zpos m = Zpos p * 2 ^ (- e).
Proof.
  intros Hp.
  assert (Hd : Zpos (digits2_pos p) <= 53) by (apply digits2_pos_le; lia).
  unfold Number_of_Z, binary_normalize, binary_round, shl_align.
  unfold fexp, emin, prec, emax.
  rewrite Z.add_0_r, Z.sub_0_r.
  rewrite Z.max_l by lia.
  destruct (Zpos (digits2_pos p) - 53) as [|q|q] eqn:Hq; [|lia|].
  - exists p, 0. split; [|split; [lia|cbn; lia]].
    unfold binary_round_aux, shr_fexp, fexp, emin.
    cbn [Zdigits2 shr_record_of_loc].
    rewrite Z.add_0_r, Z.sub_0_r, Z.max_l by lia. rewrite Hq.
    cbn [shr shr_m loc_of_shr_record round_nearest_even Zdigits2].
    rewrite Z.add_0_r, Z.sub_0_r, Z.max_l by lia. rewrite Hq.
    cbn. reflexivity.
  - exists (Pos.iter xO p q), (Zneg q).
    split; [|split; [lia|cbn [Z.opp]; apply iter_xO_value]].
    unfold binary_round_aux, shr_fexp, fexp, emin.
    cbn [Zdigits2 shr_record_of_loc].
    rewrite iter_xO_digits.
    replace (Z.max (Zpos (digits2_pos p + q) + Zneg q - 53) (3 - 1024 - 53)
             - Zneg q) with 0 by lia.
    cbn [shr shr_m loc_of_shr_record round_nearest_even Zdigits2].
    rewrite iter_xO_digits.
    replace (Z.max (Zpos (digits2_pos p + q) + Zneg q - 53) (3 - 1024 - 53)
             - Zneg q) with 0 by lia.
    cbn [shr shr_m].
    destruct (Z.leb_spec (Zneg q) (1024 - 53)); [reflexivity|lia].
Qed.

Lemma TimeClip_Number_of_Z (z : Z) :
  0 < z <= 8640000000000000 ->
  TimeClip (Number_of_Z z) = Some z.
Proof.
  intros Hz. destruct z as [|p|p]; try lia.
  destruct (Number_of_Z_exact p) as (m & e & -> & He & Hm); [lia|].
  unfold TimeClip, truncate_pos.
  destruct (Z.leb_spec 0 e).
  - assert (e = 0) by lia. subst e.
    change (2 ^ (- 0)) with 1 in Hm. change (2 ^ 0) with 1.
    rewrite Z.mul_1_r in *. rewrite Hm.
    destruct (Z.ltb_spec 8640000000000000 (Zpos p)); [lia|].
    reflexivity.
  - assert (0 < 2 ^ (- e)) by (apply Z.pow_pos_nonneg; lia).
    rewrite Hm.
    destruct (Z.ltb_spec (8640000000000000 * 2 ^ (- e)) (Zpos p * 2 ^ (- e)));
      [nia|].
    cbn [cond_Zopp]. f_equal. apply Z.div_mul. lia.
Qed.
End NumberFacts.

Section ParseIntFacts.

Lemma hex_digit_range (c : CodeUnit) :
  is_hex_digit c = true <->
  ((48 <= c <= 57) \/ (97 <= c <= 102) \/ (65 <= c <= 70))%N.
Proof.
  unfold is_hex_digit.
  rewrite !orb_true_iff, !andb_true_iff, !N.leb_le. tauto.
Qed.

Lemma hex_not_whitespace (c : CodeUnit) :
  is_hex_digit c = true -> is_whitespace c = false.
Proof.
  intros H. apply hex_digit_range in H.
  apply not_true_is_false. unfold is_whitespace. cbn [existsb].
  rewrite !orb_true_iff, !N.eqb_eq. lia.
Qed.

Lemma hex_radix_digit (c : CodeUnit) :
  is_hex_digit c = true ->
  radix_digit 16 c = Some (hex_digit_value c)
  /\ (0 <= hex_digit_value c < 16)%Z.
Proof.
  intros H. apply hex_digit_range in H.
  unfold radix_digit, digit_value, hex_digit_value.
  destruct (N.leb_spec 48 c); destruct (N.leb_spec c 57);
    destruct (N.leb_spec 97 c); destruct (N.leb_spec c 122);
    destruct (N.leb_spec 65 c); destruct (N.leb_spec c 90);
    cbn [andb]; try lia;
    match goal with
    | |- context [(?d <? 16)%Z] => destruct (Z.ltb_spec d 16)
    end; split; (reflexivity || lia).
Qed.

Lemma digits_prefix_hex (s : jsstring) :
  forallb is_hex_digit s = true ->
  digits_prefix 16 s = map hex_digit_value s.
Proof.
  induction s as [|c r IH]; cbn [forallb digits_prefix map];
    [reflexivity|].
  intros H. apply andb_true_iff in H as [Hc Hr].
  destruct (hex_radix_digit c Hc) as [-> _]. now rewrite IH.
Qed.

Lemma digits_value_hex (s : jsstring) (acc : Z) :
  fold_left (fun a d => a * 16 + d)%Z (map hex_digit_value s) acc
  = fold_left (fun a c => 16 * a + hex_digit_value c)%Z s acc.
Proof.
  revert acc. induction s as [|c r IH]; intros acc; cbn [fold_left map];
    [reflexivity|].
  rewrite IH. f_equal. lia.
Qed.

(** [parseInt] of a non-empty string of hexadecimal digits. *)
Lemma parseInt_hex (s : jsstring) :
  s <> [] -> forallb is_hex_digit s = true ->
  parseInt s 16
  = if (base16 s =? 0)%Z then S754_zero false else Number_of_Z (base16 s).
Proof.
  intros Hne Hs. destruct s as [|c r]; [congruence|].
  pose proof Hs as Hs'. cbn [forallb] in Hs'.
  apply andb_true_iff in Hs' as [Hc Hr].
  unfold parseInt. cbn [trim_start].
  rewrite (hex_not_whitespace c Hc).
  pose proof (proj1 (hex_digit_range c) Hc) as Rc.
  change (cu "-") with 45%N. change (cu "+") with 43%N.
  change (cu "0") with 48%N. change (cu "x") with 120%N.
  change (cu "X") with 88%N.
  destruct (N.eqb_spec c 45); [lia|]. destruct (N.eqb_spec c 43); [lia|].
  cbn [orb].
  change (negb (16 =? 0) && ((16 <? 2) || (36 <? 16)))%Z with false.
  change ((16 =? 0) || (16 =? 16))%Z with true.
  change (16 =? 0)%Z with false. cbv iota.
  match goal with
  | |- context [snd ?m] => assert (E : m = (c :: r, 16%Z))
  end.
  { destruct r as [|x r0]; [reflexivity|].
    cbn [forallb] in Hr. apply andb_true_iff in Hr as [Hx _].
    apply hex_digit_range in Hx.
    destruct (N.eqb_spec x 120); [lia|]. destruct (N.eqb_spec x 88); [lia|].
    now rewrite andb_false_r. }
  rewrite E. cbn [fst snd].
  rewrite (digits_prefix_hex _ Hs). cbn [map].
  change (hex_digit_value c :: map hex_digit_value r)
    with (map hex_digit_value (c :: r)).
  unfold digits_value. rewrite digits_value_hex. fold (base16 (c :: r)).
  reflexivity.
Qed.

Lemma base16_bounds (s : jsstring) :
  forallb is_hex_digit s = true ->
  (0 <= base16 s < 16 ^ Z.of_nat (length s))%Z.
Proof.
  unfold base16.
  assert (G : forall acc,
    forallb is_hex_digit s = true ->
    (fold_left (fun a c => 16 * a + hex_digit_value c) s acc
     = acc * 16 ^ Z.of_nat (length s)
       + fold_left (fun a c => 16 * a + hex_digit_value c) s 0
     /\ 0 <= fold_left (fun a c => 16 * a + hex_digit_value c) s 0
          < 16 ^ Z.of_nat (length s))%Z).
  { induction s as [|c r IH]; intros acc H.
    - cbn. lia.
    - cbn [forallb] in H. apply andb_true_iff in H as [Hc Hr].
      destruct (hex_radix_digit c Hc) as [_ Hd].
      cbn [fold_left length]. rewrite Nat2Z.inj_succ, Z.pow_succ_r by lia.
      destruct (IH (16 * acc + hex_digit_value c)%Z Hr) as [-> _].
      destruct (IH (16 * 0 + hex_digit_value c)%Z Hr) as [-> Hb].
      nia. }
  intros H. apply (G 0%Z H).
Qed.
End ParseIntFacts.

Section TimestampFacts.

Lemma slice_substring (s : jsstring) (i j : nat) :
  (i <= j)%nat -> (j <= length s)%nat ->
  slice s (Z.of_nat i) (Z.of_nat j) = substring s i j.
Proof.
  intros Hij Hj. unfold slice, substring.
  destruct (Z.ltb_spec (Z.of_nat i) 0); [lia|].
  destruct (Z.ltb_spec (Z.of_nat j) 0); [lia|].
  rewrite !Z.min_l by lia.
  destruct (Z.leb_spec (Z.of_nat j) (Z.of_nat i)).
  - replace (j - i)%nat with 0%nat by lia. reflexivity.
  - rewrite <- Nat2Z.inj_sub, !Nat2Z.id by lia. reflexivity.
Qed.

(** The twelve timestamp characters of a string that matches the
    pattern are hexadecimal digits. *)
Lemma pattern_timestampHex (a : jsstring) :
  UUIDv7_pattern a ->
  slice a 0 8 ++ slice a 9 13 = substring a 0 8 ++ substring a 9 13
  /\ length (substring a 0 8 ++ substring a 9 13) = 12%nat
  /\ forallb is_hex_digit (substring a 0 8 ++ substring a 9 13) = true.
Proof.
  intros [Hlen H].
  change 0 with (Z.of_nat 0). change 8 with (Z.of_nat 8).
  change 9 with (Z.of_nat 9). change 13 with (Z.of_nat 13).
  rewrite !slice_substring by lia.
  split; [reflexivity|].
  do 36 (destruct a as [|? a]; [discriminate Hlen|]).
  destruct a; [clear Hlen|discriminate Hlen].
  split; [reflexivity|].
  position_facts H 36%nat. clear H. cbn [position_ok] in *.
  unfold substring. cbn [firstn skipn Nat.sub app forallb].
  repeat match goal with
         | E : is_hex_digit ?c = true |- context [is_hex_digit ?c] =>
             rewrite E
         end.
  reflexivity.
Qed.

Lemma getTimestamp_pattern (a : jsstring) :
  UUIDv7_pattern a ->
  parseInt (slice a 0 8 ++ slice a 9 13) 16 <> S754_nan
  /\ getTimestamp a
     = {| DateValue := Some (base16 (substring a 0 8 ++ substring a 9 13)) |}
  /\ 0 <= base16 (substring a 0 8 ++ substring a 9 13) < 2 ^ 48.
Proof.
  intros Ha. destruct (pattern_timestampHex a Ha) as (Hs & Hl & Hh).
  unfold getTimestamp. rewrite Hs.
  set (h := substring a 0 8 ++ substring a 9 13) in *.
  pose proof (base16_bounds h Hh) as Hb. rewrite Hl in Hb.
  change (16 ^ Z.of_nat 12) with (2 ^ 48) in Hb.
  assert (Hne : h <> []) by (intros E; rewrite E in Hl; discriminate Hl).
  rewrite (parseInt_hex h Hne Hh).
  assert (H48 : 2 ^ 48 = 281474976710656) by reflexivity.
  destruct (Z.eqb_spec (base16 h) 0) as [E|E].
  - rewrite E. split; [discriminate|]. split; [reflexivity|lia].
  - split.
    + destruct (base16 h) as [|p|p] eqn:Ep; try lia.
      destruct (Number_of_Z_exact p) as (m & e & -> & _); [|discriminate].
      change (2 ^ 53) with 9007199254740992. lia.
    + split; [|lia]. unfold new_Date.
      rewrite TimeClip_Number_of_Z by lia. reflexivity.
Qed.
End TimestampFacts.

Section ComparisonFacts.

Lemma string_lt_nil_r (x : jsstring) : string_lt x [] = false.
Proof. destruct x; reflexivity. Qed.

Lemma string_lt_cons (m n : CodeUnit) (x y : jsstring) :
  string_lt (m :: x) (n :: y)
  = if (m =? n)%N then string_lt x y else (m <? n)%N.
Proof.
  unfold string_lt. cbn [IsStringPrefix first_difference].
  destruct (N.eqb_spec m n) as [->|Hne].
  - rewrite N.eqb_refl. reflexivity.
  - destruct (N.eqb_spec n m); [congruence|]. reflexivity.
Qed.

Lemma string_lt_lex (a b : jsstring) :
  string_lt a b = true <-> lex_before a b.
Proof.
  revert b. induction a as [|m x IH]; intros [|n y].
  - split; [discriminate|inversion 1].
  - split; [constructor|reflexivity].
  - split; [discriminate|inversion 1].
  - rewrite string_lt_cons. destruct (N.eqb_spec m n) as [->|Hne].
    + rewrite IH. split; [now constructor|].
      inversion 1; subst; [lia|assumption].
    + rewrite N.ltb_lt. split; [now constructor|].
      inversion 1; subst; [assumption|congruence].
Qed.

Lemma string_lt_irrefl (a : jsstring) : string_lt a a = false.
Proof.
  induction a as [|m x IH]; [reflexivity|].
  now rewrite string_lt_cons, N.eqb_refl.
Qed.

Lemma string_lt_asym (a b : jsstring) :
  string_lt a b = true -> string_lt b a = false.
Proof.
  revert b. induction a as [|m x IH]; intros [|n y]; try discriminate.
  - reflexivity.
  - rewrite !string_lt_cons.
    destruct (N.eqb_spec m n) as [->|Hne].
    + rewrite N.eqb_refl. apply IH.
    + destruct (N.eqb_spec n m); [congruence|].
      rewrite N.ltb_lt. intros H. apply N.ltb_ge. lia.
Qed.

Lemma string_lt_total (a b : jsstring) :
  string_lt a b = false -> string_lt b a = false -> a = b.
Proof.
  revert b. induction a as [|m x IH]; intros [|n y]; try discriminate.
  - reflexivity.
  - rewrite !string_lt_cons.
    destruct (N.eqb_spec m n) as [->|Hne].
    + rewrite N.eqb_refl. intros H1 H2. f_equal. now apply IH.
    + destruct (N.eqb_spec n m); [congruence|].
      rewrite !N.ltb_ge. lia.
Qed.

Lemma string_lt_app_l (p q u v : jsstring) :
  length p = length q ->
  string_lt p q = true -> string_lt (p ++ u) (q ++ v) = true.
Proof.
  revert q. induction p as [|m x IH]; intros [|n y] Hl; try discriminate.
  cbn [app]. rewrite !string_lt_cons.
  destruct (N.eqb_spec m n); [|trivial].
  apply IH. now injection Hl.
Qed.

Lemma string_lt_app_same (p u v : jsstring) :
  string_lt (p ++ u) (p ++ v) = string_lt u v.
Proof.
  induction p as [|m x IH]; [reflexivity|].
  cbn [app]. now rewrite string_lt_cons, N.eqb_refl.
Qed.

Lemma string_lt_app_split (p q u v : jsstring) :
  length p = length q ->
  string_lt (p ++ u) (q ++ v) = true ->
  string_lt p q = true \/ (p = q /\ string_lt u v = true).
Proof.
  revert q. induction p as [|m x IH]; intros [|n y] Hl; try discriminate.
  - right. now split.
  - cbn [app]. rewrite !string_lt_cons.
    destruct (N.eqb_spec m n) as [->|Hne]; [|now left].
    intros H. destruct (IH y (f_equal pred Hl) H) as [|[-> ?]];
      [now left|right; now split].
Qed.

Lemma base16_cons (c : CodeUnit) (s : jsstring) :
  base16 (c :: s)
  = hex_digit_value c * 16 ^ Z.of_nat (length s) + base16 s.
Proof.
  unfold base16. cbn [fold_left]. rewrite Z.mul_0_r, Z.add_0_l.
  generalize (hex_digit_value c). clear c.
  induction s as [|d r IH]; intros acc.
  - cbn. lia.
  - cbn [fold_left length]. rewrite Nat2Z.inj_succ, Z.pow_succ_r by lia.
    rewrite Z.mul_0_r, Z.add_0_l, IH, (IH (hex_digit_value d)). lia.
Qed.

(** On hexadecimal digits written in one case the order of the code
    units is the order of the digit values. *)
Lemma hex_digit_order (c d : CodeUnit) :
  is_hex_digit c = true -> is_hex_digit d = true ->
  (is_upper_letter c = false /\ is_upper_letter d = false)
  \/ (is_lower_letter c = false /\ is_lower_letter d = false) ->
  (hex_digit_value c < hex_digit_value d -> (c < d)%N)
  /\ (hex_digit_value c = hex_digit_value d -> c = d).
Proof.
  intros Hc Hd Hcase.
  apply hex_digit_range in Hc, Hd.
  unfold is_upper_letter, is_lower_letter in Hcase.
  rewrite !andb_false_iff, !N.leb_gt in Hcase.
  unfold hex_digit_value.
  destruct (N.leb_spec c 57); destruct (N.leb_spec 97 c);
    destruct (N.leb_spec d 57); destruct (N.leb_spec 97 d);
    cbv iota; lia.
Qed.

Lemma base16_lt_string_lt (x : jsstring) :
  forall y,
    length x = length y ->
    forallb is_hex_digit x = true -> forallb is_hex_digit y = true ->
    same_case x y = true ->
    base16 x < base16 y -> string_lt x y = true.
Proof.
  induction x as [|c x IH]; intros [|d y] Hl Hx Hy Hcase Hlt;
    try discriminate.
  injection Hl as Hl.
  cbn [forallb] in Hx, Hy.
  apply andb_true_iff in Hx as [Hc Hx], Hy as [Hd Hy].
  assert (Hcase' :
    ((is_upper_letter c = false /\ is_upper_letter d = false)
     \/ (is_lower_letter c = false /\ is_lower_letter d = false))
    /\ same_case x y = true).
  { unfold same_case, lower_case, upper_case in *.
    cbn [forallb] in Hcase.
    rewrite orb_true_iff, !andb_true_iff, !negb_true_iff in Hcase.
    rewrite orb_true_iff, !andb_true_iff. tauto. }
  destruct Hcase' as [Hcd Hxy].
  destruct (hex_digit_order c d Hc Hd Hcd) as [Hord Hinj].
  destruct (hex_radix_digit c Hc) as [_ Rc].
  destruct (hex_radix_digit d Hd) as [_ Rd].
  pose proof (base16_bounds x Hx) as Bx.
  pose proof (base16_bounds y Hy) as By.
  rewrite !base16_cons, <- Hl in Hlt. rewrite <- Hl in By.
  rewrite string_lt_cons.
  destruct (N.eqb_spec c d) as [->|Hne].
  - apply IH; try assumption. lia.
  - apply N.ltb_lt. apply Hord.
    destruct (Z.lt_trichotomy (hex_digit_value c) (hex_digit_value d))
      as [?|[E|?]]; [assumption|now apply Hinj in E|nia].
Qed.
End ComparisonFacts.

Section OrderFacts.
Variable up : CodeUnit -> list CodeUnit.

Lemma isValid_pattern (s : jsstring) :
  isValid up s = true <-> UUIDv7_pattern s.
Proof.
  unfold isValid. rewrite RegExp_test_validateUUID7. apply pmatch_pattern.
Qed.

Lemma forallb_firstn {A} (f : A -> bool) (n : nat) (s : list A) :
  forallb f s = true -> forallb f (firstn n s) = true.
Proof.
  revert n. induction s as [|c r IH]; intros [|n]; cbn; trivial.
  intros H. apply andb_true_iff in H as [-> H]. now apply IH.
Qed.

Lemma forallb_skipn {A} (f : A -> bool) (n : nat) (s : list A) :
  forallb f s = true -> forallb f (skipn n s) = true.
Proof.
  revert n. induction s as [|c r IH]; intros [|n]; cbn; trivial.
  intros H. apply andb_true_iff in H as [_ H]. now apply IH.
Qed.

Lemma forallb_timestamp {f : CodeUnit -> bool} (s : jsstring) :
  forallb f s = true ->
  forallb f (substring s 0 8 ++ substring s 9 13) = true.
Proof.
  intros H. unfold substring. rewrite forallb_app.
  rewrite !forallb_firstn; [reflexivity| |]; now apply forallb_skipn.
Qed.

Lemma same_case_timestamp (a b : jsstring) :
  same_case a b = true ->
  same_case (substring a 0 8 ++ substring a 9 13)
            (substring b 0 8 ++ substring b 9 13) = true.
Proof.
  unfold same_case, lower_case, upper_case.
  rewrite !orb_true_iff, !andb_true_iff.
  intros [[Ha Hb]|[Ha Hb]]; [left|right]; split;
    now apply forallb_timestamp.
Qed.

Lemma pattern_decompose (a : jsstring) :
  UUIDv7_pattern a ->
  a = substring a 0 8 ++ cu "-" :: substring a 9 13 ++ skipn 13 a
  /\ length (substring a 0 8) = 8%nat
  /\ length (substring a 9 13) = 4%nat.
Proof.
  intros [Hlen H].
  do 36 (destruct a as [|? a]; [discriminate Hlen|]).
  destruct a; [clear Hlen|discriminate Hlen].
  pose proof (H 8%nat _ eq_refl) as H8. cbn [position_ok] in H8.
  apply N.eqb_eq in H8. rewrite <- H8.
  repeat split.
Qed.

(** For two strings that match the pattern and use one letter case, a
    smaller timestamp value makes the first sort before the second. *)
Lemma timestamp_lt_string_lt (a b : jsstring) :
  UUIDv7_pattern a -> UUIDv7_pattern b -> same_case a b = true ->
  base16 (substring a 0 8 ++ substring a 9 13)
  < base16 (substring b 0 8 ++ substring b 9 13) ->
  string_lt a b = true.
Proof.
  intros Ha Hb Hcase Hlt.
  destruct (pattern_timestampHex a Ha) as (_ & Hla & Hha).
  destruct (pattern_timestampHex b Hb) as (_ & Hlb & Hhb).
  destruct (pattern_decompose a Ha) as (Ea & La8 & La4).
  destruct (pattern_decompose b Hb) as (Eb & Lb8 & Lb4).
  assert (H : string_lt (substring a 0 8 ++ substring a 9 13)
                        (substring b 0 8 ++ substring b 9 13) = true).
  { apply base16_lt_string_lt; try assumption; [congruence|].
    now apply same_case_timestamp. }
  rewrite Ea, Eb.
  apply string_lt_app_split in H as [H|[E H]]; [| |congruence].
  - apply string_lt_app_l; [congruence|assumption].
  - rewrite E, string_lt_app_same, string_lt_cons, N.eqb_refl.
    apply string_lt_app_l; [congruence|assumption].
Qed.
End OrderFacts.

Section CountFacts.

Lemma Number_lt_zero (x : Number) :
  Number_lt x (S754_zero false) = true <-> is_negative x.
Proof.
  destruct x as [s|s| |s m e]; cbn; try (destruct s); split;
    intros H; try discriminate; try reflexivity; try assumption;
    try contradiction.
Qed.

Lemma Number_isInteger_spec (x : Number) :
  Number_isInteger x = true <-> is_integer x.
Proof.
  unfold is_integer.
  destruct x as [s|s| |s m e]; cbn [Number_isInteger represents].
  - split; [now exists 0|reflexivity].
  - split; [discriminate|intros [_ []]].
  - split; [discriminate|intros [_ []]].
  - destruct (Z.leb_spec 0 e) as [He|He].
    + split; [eexists; reflexivity|reflexivity].
    + assert (Hk : 0 < 2 ^ (- e)) by (apply Z.pow_pos_nonneg; lia).
      rewrite Z.eqb_eq, Z.mod_divide by lia. unfold Z.divide.
      destruct s; cbn [cond_Zopp]; split; intros [z Hz].
      * exists (- z). lia.
      * exists (- z). lia.
      * now exists z.
      * now exists z.
Qed.

Lemma ToLength_represents (x : Number) (n : Z) :
  represents x n -> 0 <= n <= 2 ^ 53 - 1 -> ToLength x = n.
Proof.
  destruct x as [s|s| |s m e]; cbn [represents ToLength]; try contradiction.
  - intros -> _. reflexivity.
  - unfold truncate_pos. destruct (Z.leb_spec 0 e) as [He|He]; intros H Hn.
    + assert (0 < 2 ^ e) by (apply Z.pow_pos_nonneg; lia).
      destruct s; cbn [cond_Zopp] in H; [nia|]. lia.
    + assert (0 < 2 ^ (- e)) by (apply Z.pow_pos_nonneg; lia).
      destruct s; cbn [cond_Zopp] in H; [nia|].
      rewrite H, Z.div_mul by lia. lia.
Qed.

Lemma ToLength_large (x : Number) (n : Z) :
  represents x n -> 2 ^ 32 <= n -> 2 ^ 32 - 1 < ToLength x.
Proof.
  destruct x as [s|s| |s m e]; cbn [represents ToLength]; try contradiction.
  - intros -> H. change (2 ^ 32) with 4294967296 in H. lia.
  - assert (H32 : 2 ^ 32 = 4294967296) by reflexivity.
    assert (H53 : 2 ^ 53 = 9007199254740992) by reflexivity.
    unfold truncate_pos. destruct (Z.leb_spec 0 e) as [He|He]; intros H Hn.
    + assert (0 < 2 ^ e) by (apply Z.pow_pos_nonneg; lia).
      destruct s; cbn [cond_Zopp] in H; [nia|]. lia.
    + assert (0 < 2 ^ (- e)) by (apply Z.pow_pos_nonneg; lia).
      destruct s; cbn [cond_Zopp] in H; [nia|].
      rewrite H, Z.div_mul by lia. lia.
Qed.
End CountFacts.

Section LoopFacts.
Context {St A : Type}.
Variable f : St -> Completion A * St.

Lemma from_loop_calls (n : nat) :
  forall g l g',
    from_loop f n g = (Normal l, g') -> calls f g l g' /\ length l = n.
Proof.
  induction n as [|n IH]; intros g l g'; cbn [from_loop].
  - intros H. injection H as <- <-. split; [constructor|reflexivity].
  - destruct (f g) as [[v|e] g1] eqn:Hf; [|discriminate].
    destruct (from_loop f n g1) as [[l1|e] g2] eqn:Hn; [|discriminate].
    intros H. injection H as <- <-.
    apply IH in Hn as [Hc Hl].
    split; [econstructor; eassumption|cbn; congruence].
Qed.

Lemma calls_from_loop (g : St) (l : list A) (g' : St) :
  calls f g l g' -> from_loop f (length l) g = (Normal l, g').
Proof.
  induction 1 as [g|g v g1 l g2 Hf Hc IH]; cbn [from_loop length].
  - reflexivity.
  - now rewrite Hf, IH.
Qed.

Lemma from_loop_throw (n : nat) :
  forall g e g',
    from_loop f n g = (Throw e, g') ->
    exists l g1, calls f g l g1 /\ (length l < n)%nat
                 /\ f g1 = (Throw e, g').
Proof.
  induction n as [|n IH]; intros g e g'; cbn [from_loop];
    [discriminate|].
  destruct (f g) as [[v|e0] g1] eqn:Hf.
  - destruct (from_loop f n g1) as [[l1|e1] g2] eqn:Hn; [discriminate|].
    intros H. injection H as <- <-.
    apply IH in Hn as (l & g3 & Hc & Hl & Hthrow).
    exists (v :: l), g3. cbn [length].
    repeat split; [econstructor; eassumption|lia|assumption].
  - intros H. injection H as <- <-.
    exists [], g. repeat split; [constructor|cbn; lia|assumption].
Qed.

Lemma calls_throw_from_loop (g : St) (l : list A) (g1 : St) :
  calls f g l g1 ->
  forall e g' n,
    f g1 = (Throw e, g') -> (length l < n)%nat ->
    from_loop f n g = (Throw e, g').
Proof.
  induction 1 as [g|g v g1 l g2 Hf Hc IH]; intros e g' [|n] Hthrow Hl;
    cbn [length] in Hl; try lia; cbn [from_loop].
  - now rewrite Hthrow.
  - rewrite Hf, (IH e g' n Hthrow) by lia. reflexivity.
Qed.
End LoopFacts.

Section MoreFacts.
Lemma isValid_false_pattern (up : CodeUnit -> list CodeUnit) (s : jsstring) :
  isValid up s = false <-> ~ UUIDv7_pattern s.
Proof.
  rewrite <- (isValid_pattern up).
  destruct (isValid up s).
  - split; [discriminate|]. intros H. exfalso. now apply H.
  - split; [|reflexivity]. intros _ E. discriminate E.
Qed.

Lemma isValid_table_independent (up up' : CodeUnit -> list CodeUnit)
      (s : jsstring) :
  isValid up s = isValid up' s.
Proof.
  apply eq_true_iff_eq. now rewrite !isValid_pattern.
Qed.

Lemma represents_Number_of_Z (z : Z) :
  0 < z < 2 ^ 53 -> represents (Number_of_Z z) z.
Proof.
  intros Hz. destruct z as [|p|p]; try lia.
  destruct (Number_of_Z_exact p) as (m & e & -> & He & Hm); [lia|].
  cbn [represents cond_Zopp].
  destruct (Z.leb_spec 0 e); [|assumption].
  assert (e = 0) by lia. subst e.
  change (2 ^ (- 0)) with 1 in Hm. change (2 ^ 0) with 1. lia.
Qed.
End MoreFacts.

Section CreateFacts.
Variable unicodeUpper : CodeUnit -> list CodeUnit.
Context {UUID Gen : Type}.
Variable generateOrAbort : Gen -> option UUID * Gen.
Variable UUID_toString : UUID -> jsstring.

Local Abbreviation isValid := (UUID7Generator.isValid unicodeUpper).
Local Abbreviation create :=
  (UUID7Generator.create unicodeUpper generateOrAbort UUID_toString).

(** What [create] does, by the answer of the generator. *)
Lemma create_cases (g : Gen) :
  let value := match fst (generateOrAbort g) with
               | Some u => UUID_toString u
               | None => []
               end in
  (isValid value = true
   /\ create g = (Normal value, snd (generateOrAbort g)))
  \/ (isValid value = false
      /\ create g
         = (Throw (Error (lit "Invalid UUIDv7 format: " ++ value)),
            snd (generateOrAbort g))).
Proof.
  unfold UUID7Generator.create, UUID7Generator.isValid.
  destruct (generateOrAbort g) as [r g']. cbn [fst snd].
  change (lit "") with (@nil CodeUnit).
  set (value := match r with Some u => UUID_toString u | None => [] end).
  cbv zeta.
  destruct (RegExp_test unicodeUpper validateUUID7 value) eqn:Ht.
  - left. split; [reflexivity|].
    destruct value; [discriminate Ht|reflexivity].
  - right. split; [reflexivity|]. now rewrite orb_true_r.
Qed.

Lemma create_normal (g : Gen) (v : UUID7) (g' : Gen) :
  create g = (Normal v, g') ->
  isValid v = true
  /\ exists u, generateOrAbort g = (Some u, g') /\ v = UUID_toString u.
Proof.
  pose proof (create_cases g) as H. cbv zeta in H.
  destruct (generateOrAbort g) as [r g1] eqn:Hg. cbn [fst snd] in *.
  intros E. destruct H as [[Hv Hc]|[Hv Hc]];
    rewrite Hc in E; [|discriminate E].
  injection E as <- <-. split; [assumption|].
  destruct r as [u|]; [now exists u|].
  pose proof (proj1 (isValid_pattern unicodeUpper []) Hv) as [Hl _].
  discriminate Hl.
Qed.

Lemma create_throw (g : Gen) (e : JSError) (g' : Gen) :
  create g = (Throw e, g') ->
  exists value, e = Error (lit "Invalid UUIDv7 format: " ++ value).
Proof.
  pose proof (create_cases g) as H. cbv zeta in H.
  intros E. destruct H as [[Hv Hc]|[Hv Hc]];
    rewrite Hc in E; [discriminate E|].
  injection E as <- <-. eexists. reflexivity.
Qed.

Lemma calls_create_valid (g : Gen) (l : list UUID7) (g' : Gen) :
  calls create g l g' -> Forall (fun v => isValid v = true) l.
Proof.
  induction 1 as [g|g v g1 l g2 Hf Hc IH]; constructor; [|assumption].
  now apply create_normal in Hf.
Qed.
End CreateFacts.

(** ** The scenarios of the specification, evaluated *)

Section Scenarios.
Import Examples.
Variable up : CodeUnit -> list CodeUnit.

Ltac evaluate_isValid :=
  rewrite ?(isValid_table_independent up plain_table);
  vm_compute; reflexivity.

Example isValid_sample : isValid up sample = true.
Proof. evaluate_isValid. Qed.

Example isValid_upper_case :
  isValid up (lit "01923F4A-7B3D-7123-B456-426614174000") = true.
Proof. evaluate_isValid. Qed.

Example isValid_not_a_uuid : isValid up not_a_uuid = false.
Proof. evaluate_isValid. Qed.

Example isValid_version_4 :
  isValid up (lit "01923f4a-7b3d-4123-8456-426614174000") = false.
Proof. evaluate_isValid. Qed.

Example isValid_variant_c :
  isValid up (lit "01923f4a-7b3d-7123-c456-426614174000") = false.
Proof. evaluate_isValid. Qed.

Example isValid_trailing_newline :
  isValid up (sample ++ [10%N]) = false.
Proof. evaluate_isValid. Qed.

Example tryFromString_not_a_uuid : tryFromString up not_a_uuid = None.
Proof.
  unfold tryFromString. now rewrite isValid_not_a_uuid.
Qed.

Example createMany_zero :
  createMany up steady text print_number (S754_zero false) 0%nat
  = (Normal [], 0%nat).
Proof. reflexivity. Qed.

Example createMany_five :
  createMany plain_table steady text print_number (Number_of_Z 5) 0%nat
  = (Normal [sample; sample; sample; sample; sample], 5%nat).
Proof. vm_compute. reflexivity. Qed.

Example createMany_minus_one :
  createMany up steady text print_number minus_one 0%nat
  = (Throw (Error (lit "Count must be a non-negative integer: -1")), 0%nat).
Proof. vm_compute. reflexivity. Qed.

Example createMany_one_and_a_half :
  createMany up steady text print_number one_and_a_half 0%nat
  = (Throw (Error (lit "Count must be a non-negative integer: 1.5")), 0%nat).
Proof. vm_compute. reflexivity. Qed.

Example createMany_NaN :
  createMany up steady text print_number S754_nan 0%nat
  = (Throw (Error (lit "Count must be a non-negative integer: NaN")), 0%nat).
Proof. vm_compute. reflexivity. Qed.

Example parseInt_prefix_and_sign :
  parseInt (lit "  -0x1Fg") 16 = Number_of_Z (-31)
  /\ parseInt (lit "xyz") 16 = S754_nan
  /\ parseInt (lit "-0") 16 = S754_zero true.
Proof. repeat split; vm_compute; reflexivity. Qed.

Example slice_negative : slice sample (-4) 36 = lit "4000".
Proof. vm_compute. reflexivity. Qed.
End Scenarios.

(** ** The claims of the specification *)

Section Claims.
Variable unicodeUpper : CodeUnit -> list CodeUnit.
Context {UUID Gen : Type}.
Variable generateOrAbort : Gen -> option UUID * Gen.
Variable UUID_toString : UUID -> jsstring.
Variable Number_toString : Number -> jsstring.

Local Abbreviation isValid := (UUID7Generator.isValid unicodeUpper).
Local Abbreviation fromString := (UUID7Generator.fromString unicodeUpper).
Local Abbreviation tryFromString := (UUID7Generator.tryFromString unicodeUpper).
Local Abbreviation create :=
  (UUID7Generator.create unicodeUpper generateOrAbort UUID_toString).
Local Abbreviation createMany :=
  (UUID7Generator.createMany unicodeUpper generateOrAbort UUID_toString
                             Number_toString).

(** C1. [isValid(value)] is true exactly for the strings that match the
    structural pattern: 36 characters, hyphens at 8, 13, 18 and 23, a
    [7] at 14, one of [8 9 a b A B] at 19 and hexadecimal digits of
    either case elsewhere. It answers true or false for every string. *)
Theorem isValid_iff_pattern (value : jsstring) :
  (isValid value = true <-> UUIDv7_pattern value)
  /\ (isValid value = false <-> ~ UUIDv7_pattern value).
Proof.
  split; [apply isValid_pattern|apply isValid_false_pattern].
Qed.

(** C3. For a valid identifier the characters at [[0, 8)] and [[9, 13)]
    are twelve hexadecimal digits, and [getTimestamp] returns the Date
    whose time value is the base-16 integer they write; for the literal
    of the specification this is [0x01923f4a7b3d]. *)
Theorem getTimestamp_decodes :
  (forall uuid : UUID7,
      isValid uuid = true ->
      slice uuid 0 8 ++ slice uuid 9 13
      = substring uuid 0 8 ++ substring uuid 9 13
      /\ length (substring uuid 0 8 ++ substring uuid 9 13) = 12%nat
      /\ forallb is_hex_digit (substring uuid 0 8 ++ substring uuid 9 13)
         = true
      /\ getTimestamp uuid
         = {| DateValue :=
                Some (base16 (substring uuid 0 8 ++ substring uuid 9 13)) |})
  /\ getTimestamp (lit "01923f4a-7b3d-7123-8456-426614174000")
     = {| DateValue := Some 0x01923f4a7b3d |}.
Proof.
  split; [|reflexivity].
  intros uuid H. apply isValid_pattern in H.
  destruct (pattern_timestampHex uuid H) as (Hs & Hl & Hh).
  destruct (getTimestamp_pattern uuid H) as (_ & E & _).
  repeat split; assumption.
Qed.

(** C4. For a valid string [fromString] succeeds with the very same
    string, unchanged, and the result is valid. *)
Theorem fromString_roundtrip (s : jsstring) :
  isValid s = true ->
  fromString s = Normal s
  /\ (forall v, fromString s = Normal v -> v = s /\ isValid v = true).
Proof.
  intros H. unfold UUID7Generator.fromString.
  unfold UUID7Generator.isValid in H. rewrite H. cbn [negb].
  split; [reflexivity|].
  intros v E. injection E as <-. now split.
Qed.

(** C5. A string that does not match the pattern is rejected: [isValid]
    is false, [fromString] throws an error whose message ends with the
    string, [tryFromString] returns null. [tryFromString] returns a
    value exactly when [fromString] returns it. *)
Theorem invalid_rejected (s : jsstring) :
  (~ UUIDv7_pattern s ->
     isValid s = false
     /\ fromString s = Throw (Error (lit "Invalid UUIDv7 format: " ++ s))
     /\ tryFromString s = None)
  /\ (forall v, tryFromString s = Some v <-> fromString s = Normal v).
Proof.
  unfold UUID7Generator.fromString, UUID7Generator.tryFromString.
  split.
  - intros H. apply (isValid_false_pattern unicodeUpper) in H. rewrite H.
    unfold UUID7Generator.isValid in H. rewrite H. now repeat split.
  - intros v. unfold UUID7Generator.isValid.
    destruct (RegExp_test unicodeUpper validateUUID7 s); cbn [negb]; cbv iota;
      split; intros E; try discriminate E; injection E as <-; reflexivity.
Qed.

(** C6, amended. [createMany(count)] throws the error with the message
    ["Count must be a non-negative integer: "] followed by the count
    exactly when [count] is negative or not an integer. For an integer
    count [n] with [0 <= n <= 2^32 - 1] it returns exactly the values
    of [n] successive [create()] calls, in order, all of them valid,
    when all these calls succeed, and throws the error of the first
    call that fails otherwise; in particular it returns the empty
    sequence for [n = 0]. For an integer count from [2^32] on it throws
    a RangeError without calling [create()]. *)
Theorem createMany_behaviour (count : Number) (g : Gen) :
  (createMany count g
   = (Throw (Error (lit "Count must be a non-negative integer: "
                      ++ Number_toString count)), g)
   <-> is_negative count \/ ~ is_integer count)
  /\ (forall n : Z,
        represents count n -> 0 <= n <= 2 ^ 32 - 1 ->
        (forall l g',
            createMany count g = (Normal l, g') <->
            calls create g l g' /\ length l = Z.to_nat n)
        /\ (forall l g',
              createMany count g = (Normal l, g') ->
              Forall (fun v => isValid v = true) l)
        /\ (forall e g',
              createMany count g = (Throw e, g') <->
              exists l g1, calls create g l g1
                           /\ (length l < Z.to_nat n)%nat
                           /\ create g1 = (Throw e, g'))
        /\ (n = 0 -> createMany count g = (Normal [], g)))
  /\ (forall n : Z,
        represents count n -> 2 ^ 32 <= n ->
        createMany count g = (Throw RangeError, g)).
Proof.
  assert (Hcheck :
    Number_lt count (S754_zero false) || negb (Number_isInteger count) = true
    <-> is_negative count \/ ~ is_integer count).
  { rewrite orb_true_iff, negb_true_iff, Number_lt_zero.
    rewrite <- Number_isInteger_spec.
    destruct (Number_isInteger count); intuition congruence. }
  assert (Hok : forall n, represents count n -> 0 <= n ->
    Number_lt count (S754_zero false) || negb (Number_isInteger count)
    = false).
  { intros n Hn H0. apply not_true_is_false. rewrite Hcheck.
    intros [Hneg|Hint]; [|apply Hint; now exists n].
    destruct count as [s|s| |s m e];
      cbn [is_negative represents] in Hneg, Hn; try contradiction.
    subst s. cbn [cond_Zopp] in Hn.
    destruct (Z.leb_spec 0 e).
    - assert (0 < 2 ^ e) by (apply Z.pow_pos_nonneg; lia). nia.
    - assert (0 < 2 ^ (- e)) by (apply Z.pow_pos_nonneg; lia). nia. }
  unfold UUID7Generator.createMany.
  split; [|split].
  - rewrite <- Hcheck.
    destruct (Number_lt count (S754_zero false)
              || negb (Number_isInteger count)); [now split|].
    split; [|discriminate]. unfold Array_from_length.
    destruct (2 ^ 32 - 1 <? ToLength count); [discriminate|].
    intros E. apply from_loop_throw in E as (l & g1 & _ & _ & E).
    apply create_throw in E as [value E].
    vm_compute in E. discriminate E.
  - intros n Hn Hr. rewrite (Hok n Hn) by lia. unfold Array_from_length.
    rewrite (ToLength_represents count n Hn)
      by (change (2 ^ 32) with 4294967296 in Hr;
          change (2 ^ 53) with 9007199254740992; lia).
    destruct (Z.ltb_spec (2 ^ 32 - 1) n); [lia|].
    split; [|split; [|split]].
    + intros l g'. split; [apply from_loop_calls|].
      intros [Hc <-]. now apply calls_from_loop.
    + intros l g' E. apply from_loop_calls in E as [Hc _].
      now apply calls_create_valid in Hc.
    + intros e g'. split; [apply from_loop_throw|].
      intros (l & g1 & Hc & Hl & E).
      eapply calls_throw_from_loop; eassumption.
    + intros ->. reflexivity.
  - intros n Hn Hr.
    rewrite (Hok n Hn)
      by (change (2 ^ 32) with 4294967296 in Hr; lia).
    unfold Array_from_length.
    pose proof (ToLength_large count n Hn Hr) as Hl.
    destruct (Z.ltb_spec (2 ^ 32 - 1) (ToLength count)); [reflexivity|lia].
Qed.

(** C7. A value returned by [create()] is the text of the generator's
    UUID and is valid; [create()] throws exactly when the generator
    returns nothing, or a UUID whose text is empty or does not match
    the pattern, and the error then carries the message
    ["Invalid UUIDv7 format: "] followed by the text. *)
Theorem create_valid_or_fails (g : Gen) :
  (forall v g', create g = (Normal v, g') ->
     isValid v = true
     /\ exists u, generateOrAbort g = (Some u, g') /\ v = UUID_toString u)
  /\ ((exists e g', create g = (Throw e, g')) <->
      (fst (generateOrAbort g) = None
       \/ exists u, fst (generateOrAbort g) = Some u
                    /\ (UUID_toString u = []
                        \/ ~ UUIDv7_pattern (UUID_toString u))))
  /\ (forall e g', create g = (Throw e, g') ->
        exists value, e = Error (lit "Invalid UUIDv7 format: " ++ value)).
Proof.
  split; [exact (create_normal unicodeUpper generateOrAbort UUID_toString g)|].
  split; [|exact (create_throw unicodeUpper generateOrAbort UUID_toString g)].
  pose proof (create_cases unicodeUpper generateOrAbort UUID_toString g)
    as H. cbv zeta in H.
  destruct (generateOrAbort g) as [r g1] eqn:Hg. cbn [fst snd] in *.
  split.
  - intros (e & g' & E). destruct H as [[Hv Hc]|[Hv Hc]];
      rewrite Hc in E; [discriminate E|].
    destruct r as [u|]; [right|now left].
    exists u. split; [reflexivity|]. right.
    now apply (isValid_false_pattern unicodeUpper).
  - intros Hr.
    assert (Hv : isValid match r with
                         | Some u => UUID_toString u
                         | None => []
                         end = false).
    { apply (isValid_false_pattern unicodeUpper).
      destruct Hr as [->|(u & -> & [->|Hu])]; try assumption;
        intros [Hl _]; discriminate Hl. }
    destruct H as [[Hv' Hc]|[_ Hc]]; [congruence|].
    eexists. eexists. exact Hc.
Qed.

(** C8. [compare(a, b)] is -1 exactly when [a] sorts before [b] in the
    lexicographic order of the code units, 1 exactly when it sorts
    after, and 0 exactly when the two strings are equal. *)
Theorem compare_lexicographic (a b : UUID7) :
  (compare a b = -1 <-> lex_before a b)
  /\ (compare a b = 1 <-> lex_before b a)
  /\ (compare a b = 0 <-> a = b).
Proof.
  rewrite <- !string_lt_lex. unfold compare.
  destruct (string_lt a b) eqn:Hab.
  - pose proof (string_lt_asym a b Hab) as Hba. rewrite Hba.
    repeat split; congruence.
  - destruct (string_lt b a) eqn:Hba.
    + repeat split; congruence.
    + repeat split; try congruence.
      intros _. now apply string_lt_total.
Qed.

(** C9. For a valid identifier the Number that [parseInt] returns is an
    integer [t] with [0 <= t < 2^48], never NaN, and the Date holds
    this [t] as its time value. *)
Theorem getTimestamp_range (uuid : UUID7) :
  isValid uuid = true ->
  exists t : Z,
    represents (parseInt (slice uuid 0 8 ++ slice uuid 9 13) 16) t
    /\ parseInt (slice uuid 0 8 ++ slice uuid 9 13) 16 <> S754_nan
    /\ DateValue (getTimestamp uuid) = Some t
    /\ 0 <= t < 2 ^ 48.
Proof.
  intros H. apply isValid_pattern in H.
  destruct (pattern_timestampHex uuid H) as (Hs & Hl & Hh).
  destruct (getTimestamp_pattern uuid H) as (Hnan & E & Hb).
  exists (base16 (substring uuid 0 8 ++ substring uuid 9 13)).
  rewrite E. repeat split; try assumption; try apply Hb.
  rewrite Hs.
  set (h := substring uuid 0 8 ++ substring uuid 9 13) in *.
  assert (Hne : h <> []) by (intros E0; rewrite E0 in Hl; discriminate Hl).
  rewrite (parseInt_hex h Hne Hh).
  destruct (Z.eqb_spec (base16 h) 0) as [E0|E0].
  - rewrite E0. reflexivity.
  - apply represents_Number_of_Z.
    change (2 ^ 48) with 281474976710656 in Hb.
    change (2 ^ 53) with 9007199254740992. lia.
Qed.

(** C10. The error that [create()] throws for a UUID whose text is
    invalid is the error that [fromString] throws for that text: an
    [Error] with the message ["Invalid UUIDv7 format: "] followed by
    the text. When the generator returns nothing the text is empty. *)
Theorem create_error_is_fromString_error (g : Gen) :
  (forall u g', generateOrAbort g = (Some u, g') ->
     isValid (UUID_toString u) = false ->
     create g
     = (Throw (Error (lit "Invalid UUIDv7 format: " ++ UUID_toString u)), g')
     /\ fromString (UUID_toString u)
        = Throw (Error (lit "Invalid UUIDv7 format: " ++ UUID_toString u)))
  /\ (forall g', generateOrAbort g = (None, g') ->
        create g
        = (Throw (Error (lit "Invalid UUIDv7 format: " ++ lit "")), g')).
Proof.
  pose proof (create_cases unicodeUpper generateOrAbort UUID_toString g)
    as H. cbv zeta in H.
  split.
  - intros u g' Hg Hu. rewrite Hg in H. cbn [fst snd] in H.
    destruct H as [[Hv _]|[_ Hc]]; [congruence|].
    split; [exact Hc|].
    unfold UUID7Generator.fromString.
    unfold UUID7Generator.isValid in Hu. now rewrite Hu.
  - intros g' Hg. rewrite Hg in H. cbn [fst snd] in H.
    destruct H as [[Hv _]|[_ Hc]]; [|exact Hc].
    pose proof (proj1 (isValid_pattern unicodeUpper []) Hv) as [Hl _].
    discriminate Hl.
Qed.

End Claims.

Import Examples.

(** C2. The code does not keep the claim, nor what the documentation of
    [compare] promises ("compares two UUIDv7 strings for chronological
    ordering"). Both strings below are valid for every case table and
    [fromString] returns them unchanged; the first carries the smaller
    timestamp, 655360 against 720896 milliseconds; yet [compare] puts it
    after the second, because it compares code units and the code unit
    of ["a"], 97, is above that of ["B"], 66. *)
Theorem compare_against_timestamps_mixed_case :
  (forall up,
      isValid up lower_a = true /\ isValid up upper_b = true
      /\ fromString up lower_a = Normal lower_a
      /\ fromString up upper_b = Normal upper_b)
  /\ getTimestamp lower_a = {| DateValue := Some 655360 |}
  /\ getTimestamp upper_b = {| DateValue := Some 720896 |}
  /\ 655360 < 720896
  /\ compare lower_a upper_b = 1
  /\ compare upper_b lower_a = -1.
Proof.
  split.
  - intros up.
    assert (Ha : isValid up lower_a = true).
    { rewrite (isValid_table_independent up plain_table lower_a).
      vm_compute. reflexivity. }
    assert (Hb : isValid up upper_b = true).
    { rewrite (isValid_table_independent up plain_table upper_b).
      vm_compute. reflexivity. }
    split; [exact Ha|]. split; [exact Hb|].
    unfold fromString.
    change (RegExp_test up validateUUID7 lower_a) with (isValid up lower_a).
    change (RegExp_test up validateUUID7 upper_b) with (isValid up upper_b).
    rewrite Ha, Hb. split; reflexivity.
  - repeat split; vm_compute; reflexivity.
Qed.

(** C3 at the identifier of the specification. *)
Lemma getTimestamp_decodes_witness :
  isValid plain_table sample = true
  /\ getTimestamp sample
     = {| DateValue :=
            Some (base16 (substring sample 0 8 ++ substring sample 9 13)) |}.
Proof.
  split; [vm_compute; reflexivity|].
  apply (proj1 (getTimestamp_decodes plain_table) sample).
  vm_compute; reflexivity.
Defined.

(** C9 at the identifier of the specification. *)
Lemma getTimestamp_range_witness :
  isValid plain_table sample = true
  /\ exists t : Z,
       represents (parseInt (slice sample 0 8 ++ slice sample 9 13) 16) t
       /\ parseInt (slice sample 0 8 ++ slice sample 9 13) 16 <> S754_nan
       /\ DateValue (getTimestamp sample) = Some t
       /\ 0 <= t < 2 ^ 48.
Proof.
  split; [vm_compute; reflexivity|].
  apply (getTimestamp_range plain_table sample). vm_compute; reflexivity.
Defined.

(** C4 at the identifier of the specification. *)
Lemma fromString_roundtrip_witness :
  isValid plain_table sample = true
  /\ fromString plain_table sample = Normal sample.
Proof.
  split; [vm_compute; reflexivity|].
  apply (fromString_roundtrip plain_table sample). vm_compute; reflexivity.
Defined.

(** C5 at the string [not-a-uuid]. *)
Lemma invalid_rejected_witness :
  ~ UUIDv7_pattern not_a_uuid
  /\ isValid plain_table not_a_uuid = false
  /\ fromString plain_table not_a_uuid
     = Throw (Error (lit "Invalid UUIDv7 format: " ++ not_a_uuid))
  /\ tryFromString plain_table not_a_uuid = None.
Proof.
  assert (H : ~ UUIDv7_pattern not_a_uuid)
    by (intros [Hl _]; discriminate Hl).
  split; [exact H|].
  exact (proj1 (invalid_rejected plain_table not_a_uuid) H).
Defined.

(** C7 with a generator that prints a valid identifier. *)
Lemma create_valid_or_fails_witness :
  create plain_table steady text 0%nat = (Normal sample, 1%nat)
  /\ isValid plain_table sample = true.
Proof.
  assert (E : create plain_table steady text 0%nat = (Normal sample, 1%nat))
    by (vm_compute; reflexivity).
  split; [exact E|].
  exact (proj1 (proj1 (create_valid_or_fails plain_table steady text 0%nat)
                      sample 1%nat E)).
Defined.

(** C10 with a generator that prints [not-a-uuid]. *)
Lemma create_error_is_fromString_error_witness :
  garbled 0%nat = (Some not_a_uuid, 1%nat)
  /\ isValid plain_table (text not_a_uuid) = false
  /\ create plain_table garbled text 0%nat
     = (Throw (Error (lit "Invalid UUIDv7 format: " ++ text not_a_uuid)),
        1%nat)
  /\ fromString plain_table (text not_a_uuid)
     = Throw (Error (lit "Invalid UUIDv7 format: " ++ text not_a_uuid)).
Proof.
  split; [reflexivity|]. split; [vm_compute; reflexivity|].
  apply (proj1 (create_error_is_fromString_error plain_table garbled text
                                                 0%nat)
               not_a_uuid 1%nat);
    [reflexivity|vm_compute; reflexivity].
Defined.

(** C6, as stated, fails in two ways: the integer count [2^32] makes
    [createMany] throw a RangeError before any identifier is created,
    and with a generator that aborts the count [2] makes it throw the
    error of the first [create()] call. *)
Lemma createMany_counterexample :
  represents two_pow_32 4294967296
  /\ (forall up,
        createMany up steady text print_number two_pow_32 0%nat
        = (Throw RangeError, 0%nat))
  /\ represents two 2
  /\ (forall up,
        createMany up aborting text print_number two 0%nat
        = (Throw (Error (lit "Invalid UUIDv7 format: ")), 1%nat)).
Proof.
  repeat split; intros; vm_compute; reflexivity.
Qed.

(** C6, amended, at the count 2 with a generator that prints a valid
    identifier. *)
Lemma createMany_behaviour_witness :
  represents two 2
  /\ 0 <= 2 <= 2 ^ 32 - 1
  /\ createMany plain_table steady text print_number two 0%nat
     = (Normal [sample; sample], 2%nat)
  /\ calls (create plain_table steady text) 0%nat [sample; sample] 2%nat
  /\ Forall (fun v => isValid plain_table v = true) [sample; sample].
Proof.
  assert (Hn : represents two 2) by (vm_compute; reflexivity).
  assert (Hr : 0 <= 2 <= 2 ^ 32 - 1) by (vm_compute; split; discriminate).
  assert (E : createMany plain_table steady text print_number two 0%nat
              = (Normal [sample; sample], 2%nat))
    by (vm_compute; reflexivity).
  pose proof (proj1 (proj2 (createMany_behaviour plain_table steady text
                                                  print_number two 0%nat))
                    2 Hn Hr) as (Hnormal & Hvalid & _).
  split; [exact Hn|]. split; [exact Hr|]. split; [exact E|].
  split; [exact (proj1 (proj1 (Hnormal _ _) E))|exact (Hvalid _ _ E)].
Defined.

(** ** Further properties of the code *)

Section OrderAndSignFacts.

Lemma string_lt_trans (a : jsstring) :
  forall b c,
    string_lt a b = true -> string_lt b c = true -> string_lt a c = true.
Proof.
  induction a as [|m x IH]; intros [|n y] [|k z]; try discriminate;
    try reflexivity.
  rewrite !string_lt_cons.
  destruct (N.eqb_spec m n) as [->|Hmn].
  - destruct (N.eqb_spec n k) as [->|Hnk]; [apply IH|trivial].
  - rewrite N.ltb_lt. intros Hlt.
    destruct (N.eqb_spec n k) as [->|Hnk].
    + intros _. destruct (N.eqb_spec m k); [lia|]. now apply N.ltb_lt.
    + rewrite N.ltb_lt. intros Hlt'.
      destruct (N.eqb_spec m k); [lia|]. apply N.ltb_lt. lia.
Qed.

Lemma compare_opp (a b : UUID7) : compare b a = - compare a b.
Proof.
  unfold compare.
  destruct (string_lt a b) eqn:Hab.
  - now rewrite (string_lt_asym a b Hab).
  - destruct (string_lt b a); reflexivity.
Qed.

Lemma compare_lt_iff (a b : UUID7) :
  compare a b = -1 <-> string_lt a b = true.
Proof.
  unfold compare. destruct (string_lt a b); [now split|].
  destruct (string_lt b a); split; discriminate.
Qed.

(** Number exactness for either sign. *)
Lemma binary_round_exact (sx : bool) (p : positive) :
  Zpos p < 2 ^ 53 ->
  exists m e,
    binary_round prec emax sx p 0 = S754_finite sx m e /\
    e <= 0 /\ Zpos m = Zpos p * 2 ^ (- e).
Proof.
  intros Hp.
  assert (Hd : Zpos (digits2_pos p) <= 53) by (apply digits2_pos_le; lia).
  unfold binary_round, shl_align.
  unfold fexp, emin, prec, emax.
  rewrite Z.add_0_r, Z.sub_0_r.
  rewrite Z.max_l by lia.
  destruct (Zpos (digits2_pos p) - 53) as [|q|q] eqn:Hq; [|lia|].
  - exists p, 0. split; [|split; [lia|cbn; lia]].
    unfold binary_round_aux, shr_fexp, fexp, emin.
    cbn [Zdigits2 shr_record_of_loc].
    rewrite Z.add_0_r, Z.sub_0_r, Z.max_l by lia. rewrite Hq.
    cbn [shr shr_m loc_of_shr_record round_nearest_even Zdigits2].
    rewrite Z.add_0_r, Z.sub_0_r, Z.max_l by lia. rewrite Hq.
    cbn. reflexivity.
  - exists (Pos.iter xO p q), (Zneg q).
    split; [|split; [lia|cbn [Z.opp]; apply iter_xO_value]].
    unfold binary_round_aux, shr_fexp, fexp, emin.
    cbn [Zdigits2 shr_record_of_loc].
    rewrite iter_xO_digits.
    replace (Z.max (Zpos (digits2_pos p + q) + Zneg q - 53) (3 - 1024 - 53)
             - Zneg q) with 0 by lia.
    cbn [shr shr_m loc_of_shr_record round_nearest_even Zdigits2].
    rewrite iter_xO_digits.
    replace (Z.max (Zpos (digits2_pos p + q) + Zneg q - 53) (3 - 1024 - 53)
             - Zneg q) with 0 by lia.
    cbn [shr shr_m].
    destruct (Z.leb_spec (Zneg q) (1024 - 53)); [reflexivity|lia].
Qed.

Lemma TimeClip_Number_of_Z_signed (z : Z) :
  z <> 0 -> Z.abs z <= 8640000000000000 ->
  TimeClip (Number_of_Z z) = Some z.
Proof.
  intros Hz Hb.
  assert (G : forall sx p, Zpos p <= 8640000000000000 ->
             TimeClip (binary_round prec emax sx p 0)
             = Some (cond_Zopp sx (Zpos p))).
  { intros sx p Hp.
    destruct (binary_round_exact sx p) as (m & e & -> & He & Hm); [lia|].
    unfold TimeClip, truncate_pos.
    destruct (Z.leb_spec 0 e).
    - assert (e = 0) by lia. subst e.
      change (2 ^ (- 0)) with 1 in Hm. change (2 ^ 0) with 1.
      rewrite Z.mul_1_r in *. rewrite Hm.
      destruct (Z.ltb_spec 8640000000000000 (Zpos p)); [lia|].
      reflexivity.
    - assert (0 < 2 ^ (- e)) by (apply Z.pow_pos_nonneg; lia).
      rewrite Hm.
      destruct (Z.ltb_spec (8640000000000000 * 2 ^ (- e))
                           (Zpos p * 2 ^ (- e))); [nia|].
      f_equal. f_equal. apply Z.div_mul. lia. }
  destruct z as [|p|p]; [congruence| |];
    unfold Number_of_Z, binary_normalize; rewrite G by lia; reflexivity.
Qed.
End OrderAndSignFacts.

Section SliceFacts.

(** [slice] with non-negative bounds on a string of any length. *)
Lemma slice_any_length (s : jsstring) (i j : nat) :
  (i <= j)%nat ->
  slice s (Z.of_nat i) (Z.of_nat j) = substring s i j.
Proof.
  intros Hij. unfold slice, substring.
  destruct (Z.ltb_spec (Z.of_nat i) 0); [lia|].
  destruct (Z.ltb_spec (Z.of_nat j) 0); [lia|].
  destruct (Nat.le_gt_cases (length s) i) as [Hi|Hi].
  - rewrite (skipn_all2 s Hi), firstn_nil.
    rewrite !Z.min_r by lia.
    destruct (Z.leb_spec (Z.of_nat (length s)) (Z.of_nat (length s)));
      [reflexivity|lia].
  - rewrite (Z.min_l (Z.of_nat i)) by lia.
    destruct (Nat.le_gt_cases j (length s)) as [Hj|Hj].
    + rewrite Z.min_l by lia.
      destruct (Z.leb_spec (Z.of_nat j) (Z.of_nat i)).
      * replace (j - i)%nat with 0%nat by lia. reflexivity.
      * rewrite <- Nat2Z.inj_sub, !Nat2Z.id by lia. reflexivity.
    + rewrite Z.min_r by lia.
      destruct (Z.leb_spec (Z.of_nat (length s)) (Z.of_nat i)); [lia|].
      rewrite <- Nat2Z.inj_sub, !Nat2Z.id by lia.
      rewrite !firstn_all2; try reflexivity; rewrite length_skipn; lia.
Qed.

Lemma timestampHex_substring (s : jsstring) :
  slice s 0 8 ++ slice s 9 13 = substring s 0 8 ++ substring s 9 13.
Proof.
  change 0 with (Z.of_nat 0). change 8 with (Z.of_nat 8).
  change 9 with (Z.of_nat 9). change 13 with (Z.of_nat 13).
  now rewrite !slice_any_length by lia.
Qed.

Lemma timestampHex_prefix (s : jsstring) :
  substring (firstn 13 s) 0 8 ++ substring (firstn 13 s) 9 13
  = substring s 0 8 ++ substring s 9 13.
Proof.
  unfold substring.
  change (8 - 0)%nat with 8%nat. change (13 - 9)%nat with 4%nat.
  rewrite !skipn_O, firstn_firstn, skipn_firstn_comm, firstn_firstn.
  reflexivity.
Qed.

Lemma timestampHex_length (s : jsstring) :
  (length (substring s 0 8 ++ substring s 9 13) <= 12)%nat.
Proof.
  unfold substring.
  change (8 - 0)%nat with 8%nat. change (13 - 9)%nat with 4%nat.
  rewrite length_app, !length_firstn. lia.
Qed.
End SliceFacts.

Section ParseIntBounds.

Lemma trim_start_length (s : jsstring) :
  (length (trim_start s) <= length s)%nat.
Proof.
  induction s as [|c r IH]; cbn [trim_start]; [lia|].
  destruct (is_whitespace c); cbn [length]; lia.
Qed.

Lemma radix_digit_range (R : Z) (c : CodeUnit) (d : Z) :
  radix_digit R c = Some d -> 0 <= d < R.
Proof.
  unfold radix_digit, digit_value.
  destruct (N.leb_spec 48 c); destruct (N.leb_spec c 57);
    destruct (N.leb_spec 97 c); destruct (N.leb_spec c 122);
    destruct (N.leb_spec 65 c); destruct (N.leb_spec c 90);
    cbn [andb]; try discriminate;
    match goal with
    | |- context [(?x <? R)] => destruct (Z.ltb_spec x R)
    end; intros E; try discriminate E; injection E as <-; lia.
Qed.

Lemma digits_prefix_bounds (R : Z) (s : jsstring) :
  1 < R ->
  forall acc,
    0 <= acc ->
    acc * R ^ Z.of_nat (length (digits_prefix R s))
    <= fold_left (fun a d => a * R + d) (digits_prefix R s) acc
    < (acc + 1) * R ^ Z.of_nat (length (digits_prefix R s))
    /\ (length (digits_prefix R s) <= length s)%nat.
Proof.
  intros HR. induction s as [|c r IH]; intros acc Hacc;
    cbn [digits_prefix].
  - cbn. lia.
  - destruct (radix_digit R c) as [d|] eqn:Hd; [|cbn; lia].
    apply radix_digit_range in Hd.
    cbn [fold_left length]. rewrite Nat2Z.inj_succ, Z.pow_succ_r by lia.
    destruct (IH (acc * R + d)) as [[Hlo Hhi] Hlen]; [nia|].
    assert (0 < R ^ Z.of_nat (length (digits_prefix R r)))
      by (apply Z.pow_pos_nonneg; lia).
    split; [split; nia|lia].
Qed.

(** [parseInt(s, 16)] is NaN, a zero, or the Number of a non-zero integer
    with fewer hexadecimal digits than [s] has code units. *)
Lemma parseInt_16_cases (s : jsstring) :
  parseInt s 16 = S754_nan
  \/ (exists b, parseInt s 16 = S754_zero b)
  \/ (exists z, z <> 0 /\ Z.abs z < 16 ^ Z.of_nat (length s)
                /\ parseInt s 16 = Number_of_Z z).
Proof.
  unfold parseInt.
  pose proof (trim_start_length s) as Ht.
  set (t := trim_start s) in *.
  set (negative := match t with c :: _ => (c =? cu "-")%N | [] => false end).
  set (t1 := match t with
             | c :: r => if ((c =? cu "+") || (c =? cu "-"))%N then r else t
             | [] => t
             end).
  assert (Ht1 : (length t1 <= length s)%nat).
  { subst t1. destruct t as [|c r]; [assumption|].
    destruct ((c =? cu "+") || (c =? cu "-"))%N; cbn [length] in *; lia. }
  change (negb (16 =? 0) && ((16 <? 2) || (36 <? 16)))%Z with false.
  change ((16 =? 0) || (16 =? 16))%Z with true.
  change (16 =? 0)%Z with false. cbv iota.
  match goal with
  | |- context [snd ?m] => set (sR := m)
  end.
  assert (HsR : snd sR = 16 /\ (length (fst sR) <= length s)%nat).
  { subst sR. destruct t1 as [|z [|x r]]; cbn [fst snd];
      try (split; [reflexivity|assumption]).
    destruct ((z =? cu "0") && ((x =? cu "x") || (x =? cu "X")))%N;
      cbn [fst snd length] in *; split; try reflexivity; lia. }
  destruct HsR as [-> Hlen].
  destruct (digits_prefix_bounds 16 (fst sR) ltac:(lia) 0 ltac:(lia))
    as [[Hlo Hhi] Hl].
  fold (digits_value 16 (digits_prefix 16 (fst sR))) in Hlo, Hhi.
  destruct (digits_prefix 16 (fst sR)) as [|d ds] eqn:Hds; [now left|].
  right. set (v := digits_value 16 (d :: ds)) in *.
  destruct (Z.eqb_spec v 0) as [E|E]; [left; eauto|].
  right. exists (if negative then - v else v).
  assert (16 ^ Z.of_nat (length (d :: ds)) <= 16 ^ Z.of_nat (length s))
    by (apply Z.pow_le_mono_r; lia).
  split; [destruct negative; lia|]. split; [destruct negative; lia|].
  reflexivity.
Qed.
End ParseIntBounds.

Section TimestampExtras.
Variable up : CodeUnit -> list CodeUnit.

(** X5. [getTimestamp] does not validate its argument: for every string
    the Date is invalid or holds a time value strictly between [-2^48]
    and [2^48]. *)
Theorem getTimestamp_unvalidated (s : jsstring) :
  DateValue (getTimestamp s) = None
  \/ exists t, DateValue (getTimestamp s) = Some t /\ - 2 ^ 48 < t < 2 ^ 48.
Proof.
  unfold getTimestamp, new_Date. cbn [DateValue].
  rewrite timestampHex_substring.
  pose proof (timestampHex_length s) as Hl.
  set (h := substring s 0 8 ++ substring s 9 13) in *.
  destruct (parseInt_16_cases h) as [->|[[b ->]|(z & Hz & Hb & ->)]].
  - now left.
  - right. exists 0. split; [reflexivity|]. cbn. lia.
  - right. exists z.
    assert (16 ^ Z.of_nat (length h) <= 16 ^ 12)
      by (apply Z.pow_le_mono_r; lia).
    change (16 ^ 12) with 281474976710656 in *.
    change (2 ^ 48) with 281474976710656.
    split; [apply TimeClip_Number_of_Z_signed; lia|lia].
Qed.

Lemma getTimestamp_firstn13 (a b : jsstring) :
  firstn 13 a = firstn 13 b -> getTimestamp a = getTimestamp b.
Proof.
  intros H. unfold getTimestamp.
  rewrite !timestampHex_substring.
  rewrite <- (timestampHex_prefix a), <- (timestampHex_prefix b), H.
  reflexivity.
Qed.

(** X3. [getTimestamp] reads the first thirteen code units only: two
    strings, valid or not, that agree on them give the same Date. *)
Theorem getTimestamp_prefix_only (a b : jsstring) :
  firstn 13 a = firstn 13 b -> getTimestamp a = getTimestamp b.
Proof. apply getTimestamp_firstn13. Qed.

Lemma same_case_cons (c d : CodeUnit) (x y : jsstring) :
  same_case (c :: x) (d :: y) = true ->
  ((is_upper_letter c = false /\ is_upper_letter d = false)
   \/ (is_lower_letter c = false /\ is_lower_letter d = false))
  /\ same_case x y = true.
Proof.
  unfold same_case, lower_case, upper_case. cbn [forallb].
  rewrite !orb_true_iff, !andb_true_iff, !negb_true_iff. tauto.
Qed.

Lemma base16_injective (x : jsstring) :
  forall y,
    length x = length y ->
    forallb is_hex_digit x = true -> forallb is_hex_digit y = true ->
    same_case x y = true ->
    base16 x = base16 y -> x = y.
Proof.
  induction x as [|c x IH]; intros [|d y] Hl Hx Hy Hcase E;
    try discriminate; [reflexivity|].
  injection Hl as Hl.
  cbn [forallb] in Hx, Hy.
  apply andb_true_iff in Hx as [Hc Hx], Hy as [Hd Hy].
  apply same_case_cons in Hcase as [Hcd Hxy].
  destruct (hex_digit_order c d Hc Hd Hcd) as [_ Hinj].
  destruct (hex_radix_digit c Hc) as [_ Rc].
  destruct (hex_radix_digit d Hd) as [_ Rd].
  pose proof (base16_bounds x Hx) as Bx.
  pose proof (base16_bounds y Hy) as By.
  rewrite !base16_cons, <- Hl in E. rewrite <- Hl in By.
  assert (Hv : hex_digit_value c = hex_digit_value d) by nia.
  rewrite Hv in E. f_equal; [now apply Hinj|].
  apply IH; try assumption. lia.
Qed.

Lemma app_inj_length {A} (p q u v : list A) :
  length p = length q -> p ++ u = q ++ v -> p = q /\ u = v.
Proof.
  revert q. induction p as [|a p IH]; intros [|b q] Hl E;
    try discriminate; [now split|].
  injection E as -> E. destruct (IH q (f_equal pred Hl) E) as [-> ->].
  now split.
Qed.

Lemma pattern_prefix13 (a : jsstring) :
  UUIDv7_pattern a ->
  firstn 13 a = substring a 0 8 ++ cu "-" :: substring a 9 13.
Proof.
  intros [Hlen H].
  do 36 (destruct a as [|? a]; [discriminate Hlen|]).
  destruct a; [clear Hlen|discriminate Hlen].
  pose proof (H 8%nat _ eq_refl) as H8. cbn [position_ok] in H8.
  apply N.eqb_eq in H8. rewrite <- H8. reflexivity.
Qed.

(** For two strings that match the pattern and use one letter case, equal
    timestamp values mean equal first thirteen code units. *)
Lemma timestamp_eq_prefix (a b : jsstring) :
  UUIDv7_pattern a -> UUIDv7_pattern b -> same_case a b = true ->
  base16 (substring a 0 8 ++ substring a 9 13)
  = base16 (substring b 0 8 ++ substring b 9 13) ->
  firstn 13 a = firstn 13 b.
Proof.
  intros Ha Hb Hcase E.
  destruct (pattern_timestampHex a Ha) as (_ & Hla & Hha).
  destruct (pattern_timestampHex b Hb) as (_ & Hlb & Hhb).
  destruct (pattern_decompose a Ha) as (_ & La8 & La4).
  destruct (pattern_decompose b Hb) as (_ & Lb8 & Lb4).
  rewrite (pattern_prefix13 a Ha), (pattern_prefix13 b Hb).
  assert (H : substring a 0 8 ++ substring a 9 13
              = substring b 0 8 ++ substring b 9 13).
  { apply base16_injective; try assumption; [congruence|].
    now apply same_case_timestamp. }
  apply app_inj_length in H as [-> ->]; [reflexivity|congruence].
Qed.

(** X4. Two valid identifiers in one letter case have the same timestamp
    exactly when their first thirteen code units are equal. *)
Theorem getTimestamp_same_iff_prefix (a b : UUID7) :
  isValid up a = true -> isValid up b = true -> same_case a b = true ->
  (getTimestamp a = getTimestamp b <-> firstn 13 a = firstn 13 b).
Proof.
  intros Ha Hb Hcase. split; [|apply getTimestamp_firstn13].
  apply isValid_pattern in Ha, Hb.
  destruct (getTimestamp_pattern a Ha) as (_ & -> & _).
  destruct (getTimestamp_pattern b Hb) as (_ & -> & _).
  intros E. injection E as E. now apply timestamp_eq_prefix.
Qed.

(** X2. For two valid identifiers in one letter case, [compare(a, b)] is
    -1 exactly when the timestamp of [a] is smaller, or the timestamps
    are equal and the code units after the first thirteen compare as
    -1. *)
Theorem compare_by_timestamp_then_rest (a b : UUID7) (ta tb : Z) :
  isValid up a = true -> isValid up b = true -> same_case a b = true ->
  DateValue (getTimestamp a) = Some ta ->
  DateValue (getTimestamp b) = Some tb ->
  (compare a b = -1 <->
   ta < tb \/ (ta = tb /\ compare (skipn 13 a) (skipn 13 b) = -1)).
Proof.
  intros Ha Hb Hcase Hta Htb.
  apply isValid_pattern in Ha, Hb.
  destruct (getTimestamp_pattern a Ha) as (_ & Ea & _).
  destruct (getTimestamp_pattern b Hb) as (_ & Eb & _).
  rewrite Ea in Hta. rewrite Eb in Htb. cbn [DateValue] in Hta, Htb.
  injection Hta as <-. injection Htb as <-.
  rewrite !compare_lt_iff.
  assert (Hsame :
    base16 (substring a 0 8 ++ substring a 9 13)
    = base16 (substring b 0 8 ++ substring b 9 13) ->
    string_lt a b = string_lt (skipn 13 a) (skipn 13 b)).
  { intros E. pose proof (timestamp_eq_prefix a b Ha Hb Hcase E) as Hp.
    rewrite <- (firstn_skipn 13 a) at 1. rewrite <- (firstn_skipn 13 b) at 1.
    rewrite Hp. apply string_lt_app_same. }
  split.
  - intros Hab.
    destruct (Z.lt_trichotomy
                (base16 (substring a 0 8 ++ substring a 9 13))
                (base16 (substring b 0 8 ++ substring b 9 13)))
      as [Hlt|[E|Hgt]].
    + now left.
    + right. split; [assumption|]. now rewrite <- Hsame.
    + assert (Hcase' : same_case b a = true).
      { unfold same_case in *. rewrite orb_true_iff, !andb_true_iff in *.
        tauto. }
      pose proof (timestamp_lt_string_lt b a Hb Ha Hcase' Hgt) as Hba.
      rewrite (string_lt_asym b a Hba) in Hab. discriminate Hab.
  - intros [Hlt|[E Hrest]].
    + now apply timestamp_lt_string_lt.
    + now rewrite Hsame.
Qed.
End TimestampExtras.

Section CaseFacts.
Variable up : CodeUnit -> list CodeUnit.

Lemma case_change (c : CodeUnit) :
  (to_lower_ascii c = c
   \/ ((65 <= c <= 90)%N /\ to_lower_ascii c = (c + 32)%N))
  /\ (to_upper_ascii c = c
      \/ ((97 <= c <= 122)%N /\ to_upper_ascii c = (c - 32)%N)).
Proof.
  unfold to_lower_ascii, to_upper_ascii, is_upper_letter, is_lower_letter.
  destruct (N.leb_spec 65 c); destruct (N.leb_spec c 90);
    destruct (N.leb_spec 97 c); destruct (N.leb_spec c 122);
    cbn [andb]; split; (now left) || (right; split; [lia|reflexivity]).
Qed.

Ltac case_cases c :=
  let L := fresh in let U := fresh in
  destruct (case_change c) as [[L|[? L]] [U|[? U]]]; rewrite ?L, ?U.

Lemma is_hex_digit_case (c : CodeUnit) :
  is_hex_digit (to_lower_ascii c) = is_hex_digit c
  /\ is_hex_digit (to_upper_ascii c) = is_hex_digit c.
Proof.
  case_cases c; split; try reflexivity; unfold is_hex_digit; bool_iff; lia.
Qed.

Lemma is_variant_digit_case (c : CodeUnit) :
  is_variant_digit (to_lower_ascii c) = is_variant_digit c
  /\ is_variant_digit (to_upper_ascii c) = is_variant_digit c.
Proof.
  unfold is_variant_digit.
  change [cu "8"; cu "9"; cu "a"; cu "b"; cu "A"; cu "B"]
    with [56; 57; 97; 98; 65; 66]%N. cbn [existsb].
  case_cases c; split; try reflexivity; bool_iff; lia.
Qed.

Lemma eqb_case (k : CodeUnit) (c : CodeUnit) :
  (k < 65)%N ->
  (to_lower_ascii c =? k)%N = (c =? k)%N
  /\ (to_upper_ascii c =? k)%N = (c =? k)%N.
Proof.
  intros Hk. case_cases c; split; try reflexivity; bool_iff; lia.
Qed.

Lemma position_ok_case (i : nat) (c : CodeUnit) :
  position_ok i (to_lower_ascii c) = position_ok i c
  /\ position_ok i (to_upper_ascii c) = position_ok i c.
Proof.
  pose proof (is_hex_digit_case c) as Hh.
  pose proof (is_variant_digit_case c) as Hv.
  pose proof (eqb_case (cu "-") c eq_refl) as H45.
  pose proof (eqb_case (cu "7") c eq_refl) as H55.
  do 24 (destruct i as [|i]; [cbn [position_ok]; assumption|]).
  cbn [position_ok]. assumption.
Qed.

Lemma pattern_map (f : CodeUnit -> CodeUnit) (s : jsstring) :
  (forall i c, position_ok i (f c) = position_ok i c) ->
  UUIDv7_pattern (map f s) <-> UUIDv7_pattern s.
Proof.
  intros Hf. unfold UUIDv7_pattern. rewrite length_map.
  split; intros [Hl H]; (split; [exact Hl|]); intros i c Hi.
  - rewrite <- Hf. apply H. now rewrite nth_error_map, Hi.
  - rewrite nth_error_map in Hi.
    destruct (nth_error s i) as [d|] eqn:Hd; [|discriminate Hi].
    injection Hi as <-. rewrite Hf. now apply H.
Qed.

(** X6. Validity does not depend on the case of the ASCII letters:
    lower-casing or upper-casing every code unit keeps [isValid]. *)
Theorem isValid_case_insensitive (s : jsstring) :
  isValid up (map to_lower_ascii s) = isValid up s
  /\ isValid up (map to_upper_ascii s) = isValid up s.
Proof.
  split; apply eq_true_iff_eq; rewrite !isValid_pattern;
    apply pattern_map; intros i c; apply position_ok_case.
Qed.

Lemma hex_digit_value_case (c : CodeUnit) :
  hex_digit_value (to_lower_ascii c) = hex_digit_value c
  /\ hex_digit_value (to_upper_ascii c) = hex_digit_value c.
Proof.
  case_cases c; split; try reflexivity; unfold hex_digit_value;
    repeat match goal with
           | |- context [(?x <=? ?y)%N] => destruct (N.leb_spec x y)
           end; lia.
Qed.

Lemma base16_map (f : CodeUnit -> CodeUnit) (s : jsstring) :
  (forall c, hex_digit_value (f c) = hex_digit_value c) ->
  base16 (map f s) = base16 s.
Proof.
  intros Hf. unfold base16. generalize 0.
  induction s as [|c r IH]; intros acc; cbn [map fold_left];
    [reflexivity|].
  now rewrite Hf, IH.
Qed.

Lemma substring_map (f : CodeUnit -> CodeUnit) (s : jsstring) (i j : nat) :
  substring (map f s) i j = map f (substring s i j).
Proof.
  unfold substring. now rewrite skipn_map, firstn_map.
Qed.

Lemma getTimestamp_map (f : CodeUnit -> CodeUnit) (s : jsstring) :
  (forall i c, position_ok i (f c) = position_ok i c) ->
  (forall c, hex_digit_value (f c) = hex_digit_value c) ->
  UUIDv7_pattern s -> getTimestamp (map f s) = getTimestamp s.
Proof.
  intros Hp Hv Hs.
  assert (Hm : UUIDv7_pattern (map f s)) by now apply pattern_map.
  destruct (getTimestamp_pattern s Hs) as (_ & -> & _).
  destruct (getTimestamp_pattern (map f s) Hm) as (_ & -> & _).
  rewrite !substring_map, <- map_app, base16_map by assumption.
  reflexivity.
Qed.

(** X7. The timestamp of a valid identifier does not depend on the case
    of its letters. *)
Theorem getTimestamp_case_insensitive (uuid : UUID7) :
  isValid up uuid = true ->
  getTimestamp (map to_lower_ascii uuid) = getTimestamp uuid
  /\ getTimestamp (map to_upper_ascii uuid) = getTimestamp uuid.
Proof.
  intros H. apply isValid_pattern in H.
  split; apply getTimestamp_map; try assumption;
    intros; try apply position_ok_case; apply hex_digit_value_case.
Qed.
End CaseFacts.

Section LoopExtras.
Context {St A : Type}.
Variable f : St -> Completion A * St.

Lemma from_loop_app (m n : nat) :
  forall g,
    from_loop f (m + n) g
    = match from_loop f m g with
      | (Normal l1, g1) =>
          match from_loop f n g1 with
          | (Normal l2, g2) => (Normal (l1 ++ l2), g2)
          | (Throw e, g2) => (Throw e, g2)
          end
      | (Throw e, g1) => (Throw e, g1)
      end.
Proof.
  induction m as [|m IH]; intros g; cbn [Nat.add from_loop].
  - destruct (from_loop f n g) as [[l2|e] g2]; reflexivity.
  - destruct (f g) as [[v|e] g1]; [|reflexivity].
    rewrite IH.
    destruct (from_loop f m g1) as [[l1|e] g2]; [|reflexivity].
    destruct (from_loop f n g2) as [[l2|e] g3]; reflexivity.
Qed.
End LoopExtras.

Section BatchExtras.
Variable unicodeUpper : CodeUnit -> list CodeUnit.
Context {UUID Gen : Type}.
Variable generateOrAbort : Gen -> option UUID * Gen.
Variable UUID_toString : UUID -> jsstring.
Variable Number_toString : Number -> jsstring.

Local Abbreviation isValid := (UUID7Generator.isValid unicodeUpper).
Local Abbreviation fromString := (UUID7Generator.fromString unicodeUpper).
Local Abbreviation tryFromString := (UUID7Generator.tryFromString unicodeUpper).
Local Abbreviation create :=
  (UUID7Generator.create unicodeUpper generateOrAbort UUID_toString).
Local Abbreviation createMany :=
  (UUID7Generator.createMany unicodeUpper generateOrAbort UUID_toString
                             Number_toString).
Local Abbreviation advance := (fun g : Gen => snd (generateOrAbort g)).

(** For an integer count in the range of Array lengths [createMany] is
    the loop of [Array.from]. *)
Lemma createMany_in_range (count : Number) (n : Z) (g : Gen) :
  represents count n -> 0 <= n <= 2 ^ 32 - 1 ->
  createMany count g = from_loop create (Z.to_nat n) g.
Proof.
  intros Hn Hr.
  assert (H32 : 2 ^ 32 = 4294967296) by reflexivity.
  assert (H53 : 2 ^ 53 = 9007199254740992) by reflexivity.
  unfold UUID7Generator.createMany.
  assert (Hneg : Number_lt count (S754_zero false) = false).
  { apply not_true_is_false. rewrite Number_lt_zero.
    destruct count as [s|s| |s m e];
      cbn [is_negative represents] in *; try contradiction; try tauto.
    intros ->. cbn [cond_Zopp] in Hn.
    destruct (Z.leb_spec 0 e).
    - assert (0 < 2 ^ e) by (apply Z.pow_pos_nonneg; lia). nia.
    - assert (0 < 2 ^ (- e)) by (apply Z.pow_pos_nonneg; lia). nia. }
  assert (Hint : Number_isInteger count = true)
    by (apply Number_isInteger_spec; now exists n).
  rewrite Hneg, Hint. cbn [orb negb]. unfold Array_from_length.
  rewrite (ToLength_represents count n Hn) by lia.
  destruct (Z.ltb_spec (2 ^ 32 - 1) n); [lia|reflexivity].
Qed.

(** X10. A batch of [m + n] succeeds exactly when a batch of [m]
    followed by a batch of [n] from the state the first one leaves
    succeeds, and it returns the two results concatenated. *)
Theorem createMany_concat (cm cn c : Number) (m n : Z) (g : Gen) :
  represents cm m -> represents cn n -> represents c (m + n) ->
  0 <= m -> 0 <= n -> m + n <= 2 ^ 32 - 1 ->
  forall l g2,
    createMany c g = (Normal l, g2) <->
    exists l1 g1 l2,
      createMany cm g = (Normal l1, g1)
      /\ createMany cn g1 = (Normal l2, g2)
      /\ l = l1 ++ l2.
Proof.
  intros Hm Hn Hc Hm0 Hn0 Hr l g2.
  rewrite (createMany_in_range c (m + n) g Hc) by lia.
  rewrite (createMany_in_range cm m g Hm) by lia.
  rewrite Z2Nat.inj_add, from_loop_app by lia.
  destruct (from_loop create (Z.to_nat m) g) as [[l1|e] g1].
  - split.
    + destruct (from_loop create (Z.to_nat n) g1) as [[l2|e] g3] eqn:E;
        [|discriminate].
      intros H. injection H as <- <-. exists l1, g1, l2.
      rewrite (createMany_in_range cn n g1 Hn) by lia. now repeat split.
    + intros (l1' & g1' & l2 & H1 & H2 & ->).
      injection H1 as <- <-.
      rewrite (createMany_in_range cn n g1 Hn) in H2 by lia.
      now rewrite H2.
  - split; [discriminate|]. intros (l1' & g1' & l2 & H1 & _). discriminate H1.
Qed.

(** X11. [createMany(1)] is [create()]: the one value in a sequence, or
    the same error, and the same generator state. *)
Theorem createMany_one (count : Number) (g : Gen) :
  represents count 1 ->
  createMany count g
  = match create g with
    | (Normal v, g') => (Normal [v], g')
    | (Throw e, g') => (Throw e, g')
    end.
Proof.
  intros H. rewrite (createMany_in_range count 1 g H)
    by (change (2 ^ 32) with 4294967296; lia).
  change (Z.to_nat 1) with 1%nat. cbn [from_loop].
  destruct (create g) as [[v|e] g']; reflexivity.
Qed.

Lemma calls_create_iter (g : Gen) (l : list UUID7) (g' : Gen) :
  calls create g l g' ->
  g' = Nat.iter (length l) advance g
  /\ forall k v, nth_error l k = Some v ->
       exists u, fst (generateOrAbort (Nat.iter k advance g)) = Some u
                 /\ v = UUID_toString u.
Proof.
  induction 1 as [g|g v g1 l g2 Hf Hc [IHg IHl]].
  - split; [reflexivity|]. intros [|k] v E; discriminate E.
  - apply create_normal in Hf as [_ (u & Hu & ->)].
    assert (Hstep : advance g = g1).
    { exact (f_equal snd Hu). }
    split.
    + cbn [length]. rewrite Nat.iter_succ_r, Hstep. exact IHg.
    + intros [|k] w E.
      * injection E as <-. exists u.
        change (Nat.iter 0 advance g) with g. now rewrite Hu.
      * rewrite Nat.iter_succ_r, Hstep. now apply IHl.
Qed.

(** X12. A batch that succeeds for the count [n] has called the
    generator exactly [n] times, and its [k]-th element is the text of
    the [k]-th UUID generated; a batch that fails in [create()] has
    called it [k + 1] times for some [k < n], and the calls are not
    undone. *)
Theorem createMany_generator_calls (count : Number) (n : Z) (g : Gen) :
  represents count n -> 0 <= n <= 2 ^ 32 - 1 ->
  (forall l g',
      createMany count g = (Normal l, g') ->
      g' = Nat.iter (Z.to_nat n) advance g
      /\ forall k, (k < Z.to_nat n)%nat ->
           exists u, fst (generateOrAbort (Nat.iter k advance g)) = Some u
                     /\ nth_error l k = Some (UUID_toString u))
  /\ (forall e g',
        createMany count g = (Throw e, g') ->
        exists k, (k < Z.to_nat n)%nat
                  /\ g' = Nat.iter (S k) advance g).
Proof.
  intros Hn Hr. rewrite (createMany_in_range count n g Hn Hr). split.
  - intros l g' E. apply from_loop_calls in E as [Hc Hl].
    apply calls_create_iter in Hc as [Hg Hk]. rewrite Hl in Hg.
    split; [exact Hg|]. intros k Hlt.
    destruct (nth_error l k) as [v|] eqn:Ev.
    + destruct (Hk k v Ev) as (u & Hu & ->). now exists u.
    + apply nth_error_None in Ev. lia.
  - intros e g' E. apply from_loop_throw in E as (l & g1 & Hc & Hl & E).
    apply calls_create_iter in Hc as [Hg _].
    exists (length l). split; [exact Hl|].
    rewrite Nat.iter_succ. rewrite <- Hg.
    pose proof (create_cases unicodeUpper generateOrAbort UUID_toString g1)
      as H. cbv zeta in H.
    destruct H as [[_ H]|[_ H]]; rewrite H in E; now injection E.
Qed.

(** X13. Every identifier returned by [create], [fromString],
    [tryFromString] or inside the result of [createMany] has a valid
    Date as its timestamp, with a time value in [[0, 2^48)]. *)
Theorem entry_points_timestamp :
  (forall g v g', create g = (Normal v, g') ->
     exists t, DateValue (getTimestamp v) = Some t /\ 0 <= t < 2 ^ 48)
  /\ (forall s v, fromString s = Normal v ->
        exists t, DateValue (getTimestamp v) = Some t /\ 0 <= t < 2 ^ 48)
  /\ (forall s v, tryFromString s = Some v ->
        exists t, DateValue (getTimestamp v) = Some t /\ 0 <= t < 2 ^ 48)
  /\ (forall count g l g' v,
        createMany count g = (Normal l, g') -> In v l ->
        exists t, DateValue (getTimestamp v) = Some t /\ 0 <= t < 2 ^ 48).
Proof.
  assert (G : forall v, isValid v = true ->
    exists t, DateValue (getTimestamp v) = Some t /\ 0 <= t < 2 ^ 48).
  { intros v Hv. apply isValid_pattern in Hv.
    destruct (getTimestamp_pattern v Hv) as (_ & -> & Hb).
    eexists. split; [reflexivity|exact Hb]. }
  split; [|split; [|split]].
  - intros g v g' E. apply create_normal in E as [Hv _]. now apply G.
  - intros s v. unfold UUID7Generator.fromString.
    destruct (RegExp_test unicodeUpper validateUUID7 s) eqn:Hs;
      cbn [negb]; [|discriminate].
    intros E. injection E as <-. now apply G.
  - intros s v. unfold UUID7Generator.tryFromString.
    destruct (UUID7Generator.isValid unicodeUpper s) eqn:Hs; [|discriminate].
    intros E. injection E as <-. now apply G.
  - intros count g l g' v E Hin. apply G.
    unfold UUID7Generator.createMany in E.
    destruct (Number_lt count (S754_zero false)
              || negb (Number_isInteger count)); [discriminate E|].
    unfold Array_from_length in E.
    destruct (2 ^ 32 - 1 <? ToLength count); [discriminate E|].
    apply from_loop_calls in E as [Hc _].
    apply calls_create_valid in Hc.
    rewrite Forall_forall in Hc. now apply Hc.
Qed.
End BatchExtras.

Section OrderExtras.
(** X1. [compare] is a consistent comparator: swapping the arguments
    negates the result, and both "before" and "after" are transitive. *)
Theorem compare_strict_total_order (a b c : UUID7) :
  compare b a = - compare a b
  /\ (compare a b = -1 -> compare b c = -1 -> compare a c = -1)
  /\ (compare a b = 1 -> compare b c = 1 -> compare a c = 1).
Proof.
  split; [apply compare_opp|]. split.
  - rewrite !compare_lt_iff. apply string_lt_trans.
  - rewrite (compare_opp b a), (compare_opp c b), (compare_opp c a).
    intros H1 H2.
    assert (Hba : compare b a = -1) by lia.
    assert (Hcb : compare c b = -1) by lia.
    rewrite compare_lt_iff in Hba, Hcb.
    assert (Hca : compare c a = -1)
      by (apply compare_lt_iff; eapply string_lt_trans; eassumption).
    lia.
Qed.
End OrderExtras.

Section NormalisedOrder.
Variable up : CodeUnit -> list CodeUnit.

Lemma lower_case_map (s : jsstring) :
  lower_case (map to_lower_ascii s) = true.
Proof.
  unfold lower_case. rewrite forallb_forall. intros c Hc.
  apply in_map_iff in Hc as (d & <- & _).
  apply negb_true_iff.
  unfold to_lower_ascii, is_upper_letter.
  destruct (N.leb_spec 65 d); destruct (N.leb_spec d 90); cbn [andb];
    rewrite andb_false_iff, !N.leb_gt; lia.
Qed.

(** X8. For any two valid identifiers, of whatever case, a strictly
    smaller timestamp gives -1 when [compare] is applied to the
    lower-cased strings. *)
Theorem compare_after_lower_case (a b : UUID7) (ta tb : Z) :
  isValid up a = true -> isValid up b = true ->
  DateValue (getTimestamp a) = Some ta ->
  DateValue (getTimestamp b) = Some tb ->
  ta < tb ->
  compare (map to_lower_ascii a) (map to_lower_ascii b) = -1.
Proof.
  intros Ha Hb Hta Htb Hlt.
  apply isValid_pattern in Ha, Hb.
  assert (Hp : forall i c,
             position_ok i (to_lower_ascii c) = position_ok i c)
    by (intros; apply position_ok_case).
  assert (Hv : forall c,
             hex_digit_value (to_lower_ascii c) = hex_digit_value c)
    by (intros; apply hex_digit_value_case).
  pose proof (proj2 (pattern_map to_lower_ascii a Hp) Ha) as Ha'.
  pose proof (proj2 (pattern_map to_lower_ascii b Hp) Hb) as Hb'.
  rewrite <- (getTimestamp_map to_lower_ascii a Hp Hv Ha) in Hta.
  rewrite <- (getTimestamp_map to_lower_ascii b Hp Hv Hb) in Htb.
  destruct (getTimestamp_pattern _ Ha') as (_ & Ea & _).
  destruct (getTimestamp_pattern _ Hb') as (_ & Eb & _).
  rewrite Ea in Hta. rewrite Eb in Htb. cbn [DateValue] in Hta, Htb.
  injection Hta as <-. injection Htb as <-.
  apply compare_lt_iff. apply timestamp_lt_string_lt; try assumption.
  unfold same_case. now rewrite !lower_case_map.
Qed.

(** X9. A valid identifier with anything before or after it is not
    valid: the pattern is anchored at both ends. *)
Theorem isValid_not_embedded (s p q : jsstring) :
  isValid up s = true -> p <> [] \/ q <> [] ->
  isValid up (p ++ s ++ q) = false.
Proof.
  intros Hs Hpq. apply not_true_is_false. intros H.
  apply isValid_pattern in Hs as [Hl _], H as [Hl' _].
  rewrite !length_app, Hl in Hl'.
  destruct Hpq as [Hp|Hq]; [destruct p|destruct q];
    try congruence; cbn [length] in Hl'; lia.
Qed.
End NormalisedOrder.

Section DigitsOrder.
Variable up : CodeUnit -> list CodeUnit.

(** As [timestamp_lt_string_lt], asking one letter case of the timestamp
    digits only. *)
Lemma timestamp_digits_lt_string_lt (a b : jsstring) :
  UUIDv7_pattern a -> UUIDv7_pattern b ->
  same_case (substring a 0 8 ++ substring a 9 13)
            (substring b 0 8 ++ substring b 9 13) = true ->
  base16 (substring a 0 8 ++ substring a 9 13)
  < base16 (substring b 0 8 ++ substring b 9 13) ->
  string_lt a b = true.
Proof.
  intros Ha Hb Hcase Hlt.
  destruct (pattern_timestampHex a Ha) as (_ & Hla & Hha).
  destruct (pattern_timestampHex b Hb) as (_ & Hlb & Hhb).
  destruct (pattern_decompose a Ha) as (Ea & La8 & La4).
  destruct (pattern_decompose b Hb) as (Eb & Lb8 & Lb4).
  assert (H : string_lt (substring a 0 8 ++ substring a 9 13)
                        (substring b 0 8 ++ substring b 9 13) = true)
    by (apply base16_lt_string_lt; try assumption; congruence).
  rewrite Ea, Eb.
  apply string_lt_app_split in H as [H|[E H]]; [| |congruence].
  - apply string_lt_app_l; [congruence|assumption].
  - rewrite E, string_lt_app_same, string_lt_cons, N.eqb_refl.
    apply string_lt_app_l; [congruence|assumption].
Qed.

(** X14. Where [compare] does follow the timestamps: for two valid
    identifiers whose twelve timestamp digits are written in one letter
    case (no upper-case letter among them, or no lower-case letter),
    whatever the case of the other characters, a strictly smaller
    timestamp gives [compare(a, b) = -1] and [compare(b, a) = 1]. *)
Theorem compare_chronological_one_case_digits (a b : UUID7) (ta tb : Z) :
  isValid up a = true -> isValid up b = true ->
  same_case (substring a 0 8 ++ substring a 9 13)
            (substring b 0 8 ++ substring b 9 13) = true ->
  DateValue (getTimestamp a) = Some ta ->
  DateValue (getTimestamp b) = Some tb ->
  ta < tb ->
  compare a b = -1 /\ compare b a = 1.
Proof.
  intros Ha Hb Hcase Hta Htb Hlt.
  apply isValid_pattern in Ha, Hb.
  destruct (getTimestamp_pattern a Ha) as (_ & Ea & _).
  destruct (getTimestamp_pattern b Hb) as (_ & Eb & _).
  rewrite Ea in Hta. rewrite Eb in Htb. cbn [DateValue] in Hta, Htb.
  injection Hta as <-. injection Htb as <-.
  pose proof (timestamp_digits_lt_string_lt a b Ha Hb Hcase Hlt) as Hab.
  pose proof (string_lt_asym a b Hab) as Hba.
  unfold compare. now rewrite Hab, Hba.
Qed.
End DigitsOrder.

(** X1 at three identifiers in increasing order. *)
Lemma compare_strict_total_order_witness :
  compare lower_a sample = -1 /\ compare sample later = -1
  /\ compare lower_a later = -1.
Proof.
  assert (H1 : compare lower_a sample = -1) by (vm_compute; reflexivity).
  assert (H2 : compare sample later = -1) by (vm_compute; reflexivity).
  split; [exact H1|]. split; [exact H2|].
  exact (proj1 (proj2 (compare_strict_total_order lower_a sample later))
               H1 H2).
Defined.

(** X2 at two identifiers with one timestamp, where the rest decides. *)
Lemma compare_by_timestamp_then_rest_witness :
  isValid plain_table sample = true
  /\ isValid plain_table sample_twin = true
  /\ same_case sample sample_twin = true
  /\ DateValue (getTimestamp sample) = Some 1727638698813
  /\ DateValue (getTimestamp sample_twin) = Some 1727638698813
  /\ (compare sample sample_twin = -1 <->
      1727638698813 < 1727638698813
      \/ (1727638698813 = 1727638698813
          /\ compare (skipn 13 sample) (skipn 13 sample_twin) = -1)).
Proof.
  do 5 (split; [vm_compute; reflexivity|]).
  apply (compare_by_timestamp_then_rest plain_table sample sample_twin);
    vm_compute; reflexivity.
Defined.

(** X3 at two identifiers that share the first thirteen code units. *)
Lemma getTimestamp_prefix_only_witness :
  firstn 13 sample = firstn 13 sample_twin
  /\ getTimestamp sample = getTimestamp sample_twin.
Proof.
  assert (H : firstn 13 sample = firstn 13 sample_twin)
    by (vm_compute; reflexivity).
  split; [exact H|]. exact (getTimestamp_prefix_only sample sample_twin H).
Defined.

(** X4 at the same two identifiers. *)
Lemma getTimestamp_same_iff_prefix_witness :
  isValid plain_table sample = true
  /\ isValid plain_table sample_twin = true
  /\ same_case sample sample_twin = true
  /\ (getTimestamp sample = getTimestamp sample_twin
      <-> firstn 13 sample = firstn 13 sample_twin).
Proof.
  do 3 (split; [vm_compute; reflexivity|]).
  apply (getTimestamp_same_iff_prefix plain_table sample sample_twin);
    vm_compute; reflexivity.
Defined.

(** X7 at the upper-case identifier [upper_b]. *)
Lemma getTimestamp_case_insensitive_witness :
  isValid plain_table upper_b = true
  /\ getTimestamp (map to_lower_ascii upper_b) = getTimestamp upper_b
  /\ getTimestamp (map to_upper_ascii upper_b) = getTimestamp upper_b.
Proof.
  split; [vm_compute; reflexivity|].
  apply (getTimestamp_case_insensitive plain_table upper_b).
  vm_compute; reflexivity.
Defined.

(** X8 at the two identifiers of mixed case that [compare] orders against
    their timestamps. *)
Lemma compare_after_lower_case_witness :
  isValid plain_table lower_a = true
  /\ isValid plain_table upper_b = true
  /\ DateValue (getTimestamp lower_a) = Some 655360
  /\ DateValue (getTimestamp upper_b) = Some 720896
  /\ 655360 < 720896
  /\ compare (map to_lower_ascii lower_a) (map to_lower_ascii upper_b) = -1.
Proof.
  do 5 (split; [vm_compute; reflexivity|]).
  apply (compare_after_lower_case plain_table lower_a upper_b 655360 720896);
    vm_compute; reflexivity.
Defined.

(** X9 at an identifier between braces. *)
Lemma isValid_not_embedded_witness :
  isValid plain_table sample = true
  /\ (lit "{" <> [] \/ lit "}" <> [])
  /\ isValid plain_table (lit "{" ++ sample ++ lit "}") = false.
Proof.
  assert (H : isValid plain_table sample = true) by (vm_compute; reflexivity).
  assert (Hp : lit "{" <> [] \/ lit "}" <> []) by (left; discriminate).
  split; [exact H|]. split; [exact Hp|].
  exact (isValid_not_embedded plain_table sample (lit "{") (lit "}") H Hp).
Defined.

(** X10 at the counts 2, 1 and 3. *)
Lemma createMany_concat_witness :
  represents two 2 /\ represents one 1 /\ represents three (2 + 1)
  /\ 0 <= 2 /\ 0 <= 1 /\ 2 + 1 <= 2 ^ 32 - 1
  /\ (createMany plain_table steady text print_number three 0%nat
      = (Normal ([sample; sample] ++ [sample]), 3%nat)
      <-> exists l1 g1 l2,
            createMany plain_table steady text print_number two 0%nat
            = (Normal l1, g1)
            /\ createMany plain_table steady text print_number one g1
               = (Normal l2, 3%nat)
            /\ [sample; sample] ++ [sample] = l1 ++ l2).
Proof.
  assert (H2 : represents two 2) by (vm_compute; reflexivity).
  assert (H1 : represents one 1) by (vm_compute; reflexivity).
  assert (H3 : represents three (2 + 1)) by (vm_compute; reflexivity).
  assert (P2 : 0 <= 2) by discriminate.
  assert (P1 : 0 <= 1) by discriminate.
  assert (P3 : 2 + 1 <= 2 ^ 32 - 1) by (vm_compute; discriminate).
  repeat (split; [assumption|]).
  exact (createMany_concat plain_table steady text print_number
                           two one three 2 1 0%nat H2 H1 H3 P2 P1 P3
                           ([sample; sample] ++ [sample]) 3%nat).
Defined.

(** X11 at the count 1. *)
Lemma createMany_one_witness :
  represents one 1
  /\ createMany plain_table steady text print_number one 0%nat
     = match create plain_table steady text 0%nat with
       | (Normal v, g') => (Normal [v], g')
       | (Throw e, g') => (Throw e, g')
       end.
Proof.
  assert (H : represents one 1) by (vm_compute; reflexivity).
  split; [exact H|].
  exact (createMany_one plain_table steady text print_number one 0%nat H).
Defined.

(** X12 at the count 2: the generator state is the number of calls. *)
Lemma createMany_generator_calls_witness :
  represents two 2 /\ 0 <= 2 <= 2 ^ 32 - 1
  /\ createMany plain_table steady text print_number two 0%nat
     = (Normal [sample; sample], 2%nat)
  /\ 2%nat = Nat.iter (Z.to_nat 2) (fun g => snd (steady g)) 0%nat.
Proof.
  assert (Hn : represents two 2) by (vm_compute; reflexivity).
  assert (Hr : 0 <= 2 <= 2 ^ 32 - 1) by (vm_compute; split; discriminate).
  assert (E : createMany plain_table steady text print_number two 0%nat
              = (Normal [sample; sample], 2%nat))
    by (vm_compute; reflexivity).
  split; [exact Hn|]. split; [exact Hr|]. split; [exact E|].
  exact (proj1 (proj1 (createMany_generator_calls plain_table steady text
                         print_number two 2 0%nat Hn Hr) _ _ E)).
Defined.

(** X13 at a generator that prints a valid identifier. *)
Lemma entry_points_timestamp_witness :
  create plain_table steady text 0%nat = (Normal sample, 1%nat)
  /\ exists t, DateValue (getTimestamp sample) = Some t /\ 0 <= t < 2 ^ 48.
Proof.
  assert (E : create plain_table steady text 0%nat = (Normal sample, 1%nat))
    by (vm_compute; reflexivity).
  split; [exact E|].
  exact (proj1 (entry_points_timestamp plain_table steady text print_number)
               0%nat sample 1%nat E).
Defined.

(** X14 at two identifiers with lower-case timestamp digits, one of them
    with an upper-case letter further on. *)
Lemma compare_chronological_one_case_digits_witness :
  isValid plain_table lower_a_upper_tail = true
  /\ isValid plain_table lower_b = true
  /\ same_case
       (substring lower_a_upper_tail 0 8 ++ substring lower_a_upper_tail 9 13)
       (substring lower_b 0 8 ++ substring lower_b 9 13) = true
  /\ DateValue (getTimestamp lower_a_upper_tail) = Some 655360
  /\ DateValue (getTimestamp lower_b) = Some 720896
  /\ 655360 < 720896
  /\ compare lower_a_upper_tail lower_b = -1
  /\ compare lower_b lower_a_upper_tail = 1.
Proof.
  do 6 (split; [vm_compute; reflexivity|]).
  apply (compare_chronological_one_case_digits
           plain_table lower_a_upper_tail lower_b 655360 720896);
    vm_compute; reflexivity.
Defined.
